(** * cs2-cdn: the VPK extraction orchestrator of [src/extract-only.ts]

    A shallow embedding of the class [VPKExtractor]: the selection of the
    archive paths to dump, the fan-out of one external decompiler process per
    path, the fan-in on their completion callbacks, and the rename pass that
    turns [foo_png.png] into [foo.png].

    Effects are explicit.  A [World] holds the file system and the
    chronological trace of everything the program did (log calls, file system
    calls, subprocess starts and exits).  Code that can throw lives in a small
    state-and-exception monad [M]; a JavaScript [try]/[catch] is [try_catch],
    and the settled state of the promise of an [async] method is the outcome
    of its body.  What the program cannot control (the platform, the [vpk]
    library, the external tool, the order in which subprocesses exit, faults
    of the file system) is collected in an environment record [Env] over
    which every theorem quantifies.  In [M] every command that is started
    ends; the runs in which a command never exits, and a promise stays
    pending, are those of [Task]. *)

From Stdlib Require Import ZArith Ascii String List Lia Bool.
From stdpp Require Import base option list gmap strings pretty.

Local Open Scope Z_scope.

(** ** JavaScript string primitives used by the source *)

Module JS.

(** The two characters of the source's templates that a Rocq string
    literal cannot hold as they stand. *)
Definition DQUOTE : string := String "034"%char EmptyString.
Definition BACKSLASH : string := String "092"%char EmptyString.

(** Whether a string holds the character of code 0.  Node refuses such a
    string as a path ([existsSync] answers [false], the other calls throw)
    and as the text of a command ([exec] throws before anything is
    started). *)
Fixpoint hasNul (s : string) : bool :=
  match s with
  | EmptyString => false
  | String c s' => Ascii.eqb c "000"%char || hasNul s'
  end.

(** [s.charCodeAt(i)]; [None] stands for the [NaN] of an index out of range. *)
Definition charCodeAt (s : string) (i : Z) : option ascii :=
  if i <? 0 then None else String.get (Z.to_nat i) s.

Definition strlen (s : string) : Z := Z.of_nat (String.length s).

(** [s.slice(b, e)] for [0 <= b]; an empty result when [e <= b]. *)
Definition slice (s : string) (b e : Z) : string :=
  String.substring (Z.to_nat b) (Z.to_nat (e - b)) s.

(** [s.endsWith(suffix)]. *)
Definition endsWith (s suffix : string) : bool :=
  (strlen suffix <=? strlen s) &&
  String.eqb (slice s (strlen s - strlen suffix) (strlen s)) suffix.

(** [s.lastIndexOf(c)] for a one-character needle, [-1] when absent. *)
Fixpoint lastIndexOf_from (c : ascii) (s : string) (i : Z) (found : Z) : Z :=
  match s with
  | EmptyString => found
  | String a s' =>
      lastIndexOf_from c s' (i + 1) (if Ascii.eqb a c then i else found)
  end.

Definition lastIndexOf (s : string) (c : ascii) : Z :=
  lastIndexOf_from c s 0 (-1).

End JS.

(** ** [node:path], POSIX flavour

    The source imports [join], [dirname] and [basename] from [node:path].
    They are transcribed here from Node's [lib/path.js] ([posix] object), loop
    by loop, with the JavaScript index variables kept as integers so that the
    [-1] sentinels read as in the original. *)

Module Path.

Definition CHAR_FORWARD_SLASH : ascii := "/"%char.
Definition CHAR_DOT : ascii := "."%char.

Definition isPosixPathSeparator (c : option ascii) : bool :=
  match c with
  | Some a => Ascii.eqb a CHAR_FORWARD_SLASH
  | None => false
  end.

Definition sameCode (c d : option ascii) : bool :=
  match c, d with
  | Some a, Some b => Ascii.eqb a b
  | _, _ => false
  end.

(** *** [basename(path, suffix)] *)

Record BasenameState := {
  b_start : Z;
  b_end : Z;
  b_matchedSlash : bool;
  b_extIdx : Z;
  b_firstNonSlashEnd : Z;
}.

(** One turn of [for (let i = path.length - 1; i >= 0; --i)] in the branch
    taken when a suffix is given; [n] is [i + 1], so the loop is over when
    [n] reaches zero, and a [break] returns at once. *)
Fixpoint basename_suffix_loop (path suffix : string) (n : nat)
    (st : BasenameState) : BasenameState :=
  match n with
  | O => st
  | S n' =>
      let i := Z.of_nat n' in
      let code := JS.charCodeAt path i in
      if isPosixPathSeparator code then
        if negb (b_matchedSlash st) then
          {| b_start := i + 1; b_end := b_end st;
             b_matchedSlash := b_matchedSlash st;
             b_extIdx := b_extIdx st;
             b_firstNonSlashEnd := b_firstNonSlashEnd st |}
        else basename_suffix_loop path suffix n' st
      else
        let st1 :=
          if b_firstNonSlashEnd st =? -1 then
            {| b_start := b_start st; b_end := b_end st;
               b_matchedSlash := false;
               b_extIdx := b_extIdx st;
               b_firstNonSlashEnd := i + 1 |}
          else st in
        let st2 :=
          if 0 <=? b_extIdx st1 then
            if sameCode code (JS.charCodeAt suffix (b_extIdx st1)) then
              let e := b_extIdx st1 - 1 in
              {| b_start := b_start st1;
                 b_end := if e =? -1 then i else b_end st1;
                 b_matchedSlash := b_matchedSlash st1;
                 b_extIdx := e;
                 b_firstNonSlashEnd := b_firstNonSlashEnd st1 |}
            else
              {| b_start := b_start st1;
                 b_end := b_firstNonSlashEnd st1;
                 b_matchedSlash := b_matchedSlash st1;
                 b_extIdx := -1;
                 b_firstNonSlashEnd := b_firstNonSlashEnd st1 |}
          else st1 in
        basename_suffix_loop path suffix n' st2
  end.

(** The loop of the branch without a usable suffix; the state is
    [(start, end, matchedSlash)]. *)
Fixpoint basename_plain_loop (path : string) (n : nat)
    (st : Z * Z * bool) : Z * Z * bool :=
  match n with
  | O => st
  | S n' =>
      let i := Z.of_nat n' in
      let '(start, end_, matchedSlash) := st in
      if isPosixPathSeparator (JS.charCodeAt path i) then
        if negb matchedSlash then (i + 1, end_, matchedSlash)
        else basename_plain_loop path n' st
      else if end_ =? -1 then
        basename_plain_loop path n' (start, i + 1, false)
      else basename_plain_loop path n' st
  end.

Definition basename (path suffix : string) : string :=
  if (0 <? JS.strlen suffix) && (JS.strlen suffix <=? JS.strlen path) then
    if String.eqb suffix path then EmptyString
    else
      let st := basename_suffix_loop path suffix (String.length path)
                  {| b_start := 0; b_end := -1; b_matchedSlash := true;
                     b_extIdx := JS.strlen suffix - 1;
                     b_firstNonSlashEnd := -1 |} in
      let end_ :=
        if b_start st =? b_end st then b_firstNonSlashEnd st
        else if b_end st =? -1 then JS.strlen path
        else b_end st in
      JS.slice path (b_start st) end_
  else
    let '(start, end_, _) :=
      basename_plain_loop path (String.length path) (0, -1, true) in
    if end_ =? -1 then EmptyString else JS.slice path start end_.

(** *** [dirname(path)] *)

(** [for (let i = path.length - 1; i >= 1; --i)]: [n] is [i]; the result is
    the value of [end] when the loop stops, [-1] when no separator that
    follows a path component was met. *)
Fixpoint dirname_loop (path : string) (n : nat) (matchedSlash : bool) : Z :=
  match n with
  | O => -1
  | S n' =>
      let i := Z.of_nat n in
      if isPosixPathSeparator (JS.charCodeAt path i) then
        if negb matchedSlash then i
        else dirname_loop path n' matchedSlash
      else dirname_loop path n' false
  end.

Definition dirname (path : string) : string :=
  if JS.strlen path =? 0 then "."
  else
    let hasRoot := isPosixPathSeparator (JS.charCodeAt path 0) in
    let end_ := dirname_loop path (String.length path - 1) true in
    if end_ =? -1 then (if hasRoot then "/" else ".")
    else if hasRoot && (end_ =? 1) then "//"
    else JS.slice path 0 end_.

(** *** [normalizeString], [normalize] and [join] *)

Record NormalizeState := {
  n_res : string;
  n_lastSegmentLength : Z;
  n_lastSlash : Z;
  n_dots : Z;
  n_code : option ascii;
}.

Definition endsWithDotDot (res : string) : bool :=
  sameCode (JS.charCodeAt res (JS.strlen res - 1)) (Some CHAR_DOT) &&
  sameCode (JS.charCodeAt res (JS.strlen res - 2)) (Some CHAR_DOT).

(** The body of the loop of [normalizeString] at index [i] once [code] is
    known; both [continue] statements and the fall-through end by setting
    [lastSlash = i] and [dots = 0]. *)
Definition normalizeString_body (path : string) (allowAboveRoot : bool)
    (i : Z) (code : option ascii) (st : NormalizeState) : NormalizeState :=
  let res := n_res st in
  let atSlash res' seg :=
    {| n_res := res'; n_lastSegmentLength := seg;
       n_lastSlash := i; n_dots := 0; n_code := code |} in
  let aboveRoot :=
    if allowAboveRoot then
      atSlash (if 0 <? JS.strlen res then res +:+ "/.." else "..") 2
    else atSlash res (n_lastSegmentLength st) in
  if isPosixPathSeparator code then
    if (n_lastSlash st =? i - 1) || (n_dots st =? 1) then
      atSlash res (n_lastSegmentLength st)
    else if n_dots st =? 2 then
      if (JS.strlen res <? 2) || negb (n_lastSegmentLength st =? 2)
         || negb (endsWithDotDot res) then
        if 2 <? JS.strlen res then
          let lastSlashIndex := JS.lastIndexOf res CHAR_FORWARD_SLASH in
          if lastSlashIndex =? -1 then atSlash EmptyString 0
          else
            let res' := JS.slice res 0 lastSlashIndex in
            atSlash res'
              (JS.strlen res' - 1 - JS.lastIndexOf res' CHAR_FORWARD_SLASH)
        else if negb (JS.strlen res =? 0) then atSlash EmptyString 0
        else aboveRoot
      else aboveRoot
    else
      let segment := JS.slice path (n_lastSlash st + 1) i in
      atSlash (if 0 <? JS.strlen res then res +:+ "/" +:+ segment
               else segment)
              (i - n_lastSlash st - 1)
  else if sameCode code (Some CHAR_DOT) && negb (n_dots st =? -1) then
    {| n_res := res; n_lastSegmentLength := n_lastSegmentLength st;
       n_lastSlash := n_lastSlash st; n_dots := n_dots st + 1;
       n_code := code |}
  else
    {| n_res := res; n_lastSegmentLength := n_lastSegmentLength st;
       n_lastSlash := n_lastSlash st; n_dots := -1; n_code := code |}.

(** [for (let i = 0; i <= path.length; ++i)]; [fuel] counts the turns that
    are left, [path.length + 1] at the start. *)
Fixpoint normalizeString_loop (path : string) (allowAboveRoot : bool)
    (fuel : nat) (i : Z) (st : NormalizeState) : string :=
  match fuel with
  | O => n_res st
  | S fuel' =>
      if i <? JS.strlen path then
        normalizeString_loop path allowAboveRoot fuel' (i + 1)
          (normalizeString_body path allowAboveRoot i
             (JS.charCodeAt path i) st)
      else if isPosixPathSeparator (n_code st) then n_res st
      else
        normalizeString_loop path allowAboveRoot fuel' (i + 1)
          (normalizeString_body path allowAboveRoot i
             (Some CHAR_FORWARD_SLASH) st)
  end.

Definition normalizeString (path : string) (allowAboveRoot : bool) : string :=
  normalizeString_loop path allowAboveRoot (S (String.length path)) 0
    {| n_res := EmptyString; n_lastSegmentLength := 0; n_lastSlash := -1;
       n_dots := 0; n_code := None |}.

Definition normalize (path : string) : string :=
  if JS.strlen path =? 0 then "."
  else
    let isAbsolute := isPosixPathSeparator (JS.charCodeAt path 0) in
    let trailingSeparator :=
      isPosixPathSeparator (JS.charCodeAt path (JS.strlen path - 1)) in
    let path' := normalizeString path (negb isAbsolute) in
    if JS.strlen path' =? 0 then
      if isAbsolute then "/"
      else if trailingSeparator then "./" else "."
    else
      let path'' := if trailingSeparator then path' +:+ "/" else path' in
      if isAbsolute then "/" +:+ path'' else path''.

(** [join(...args)]: the non-empty arguments glued with ["/"], then
    normalised; [None] is the [undefined] of [joined]. *)
Fixpoint join_args (args : list string) (joined : option string)
    : option string :=
  match args with
  | [] => joined
  | arg :: rest =>
      join_args rest
        (if 0 <? JS.strlen arg then
           match joined with
           | None => Some arg
           | Some j => Some (j +:+ "/" +:+ arg)
           end
         else joined)
  end.

Definition join (args : list string) : string :=
  match join_args args None with
  | None => "."
  | Some joined => normalize joined
  end.

End Path.

(** ** Configuration and the tables of requested paths *)

Record Config := {
  directory : string;
  stickers : bool;
  patches : bool;
  graffiti : bool;
  characters : bool;
  musicKits : bool;
  cases : bool;
  tools : bool;
  statusIcons : bool;
  weapons : bool;
  otherWeapons : bool;
  setIcons : bool;
  seasonIcons : bool;
  premierSeasons : bool;
  tournaments : bool;
  logLevel : string;
  source2Viewer : string;
}.

Definition DEFAULT_CONFIG : Config := {|
  directory := "data";
  stickers := true;
  patches := true;
  graffiti := true;
  characters := true;
  musicKits := true;
  cases := true;
  tools := true;
  statusIcons := true;
  weapons := true;
  otherWeapons := true;
  setIcons := true;
  seasonIcons := true;
  premierSeasons := true;
  tournaments := true;
  logLevel := "info";
  source2Viewer := "Source2Viewer-CLI";
|}.

(** A key of an options object: left out, present with the value
    [undefined], or present with a value.  [Partial<Config>] admits all
    three. *)
Inductive Field (A : Type) :=
| Omitted
| Undefined
| Given (a : A).
Arguments Omitted {A}.
Arguments Undefined {A}.
Arguments Given {A} a.

(** [Partial<Config>]. *)
Record PartialConfig := {
  p_directory : Field string;
  p_stickers : Field bool;
  p_patches : Field bool;
  p_graffiti : Field bool;
  p_characters : Field bool;
  p_musicKits : Field bool;
  p_cases : Field bool;
  p_tools : Field bool;
  p_statusIcons : Field bool;
  p_weapons : Field bool;
  p_otherWeapons : Field bool;
  p_setIcons : Field bool;
  p_seasonIcons : Field bool;
  p_premierSeasons : Field bool;
  p_tournaments : Field bool;
  p_logLevel : Field string;
  p_source2Viewer : Field string;
}.

(** What [Object.assign] leaves under a key: the default when the options
    leave the key out, their value otherwise, [undefined] included.  The
    source reads a flag only in the test [=== true], which [undefined]
    fails, so an undefined flag is kept as [false]; it reads a string only
    in templates, where [undefined] prints as the word. *)
Definition assignFlag (d : bool) (f : Field bool) : bool :=
  match f with
  | Omitted => d
  | Undefined => false
  | Given b => b
  end.

Definition assignText (d : string) (f : Field string) : string :=
  match f with
  | Omitted => d
  | Undefined => "undefined"
  | Given t => t
  end.

(** [Object.assign({}, DEFAULT_CONFIG, config)] in the constructor. *)
Definition assignConfig (d : Config) (c : PartialConfig) : Config := {|
  directory := assignText (directory d) (p_directory c);
  stickers := assignFlag (stickers d) (p_stickers c);
  patches := assignFlag (patches d) (p_patches c);
  graffiti := assignFlag (graffiti d) (p_graffiti c);
  characters := assignFlag (characters d) (p_characters c);
  musicKits := assignFlag (musicKits d) (p_musicKits c);
  cases := assignFlag (cases d) (p_cases c);
  tools := assignFlag (tools d) (p_tools c);
  statusIcons := assignFlag (statusIcons d) (p_statusIcons c);
  weapons := assignFlag (weapons d) (p_weapons c);
  otherWeapons := assignFlag (otherWeapons d) (p_otherWeapons c);
  setIcons := assignFlag (setIcons d) (p_setIcons c);
  seasonIcons := assignFlag (seasonIcons d) (p_seasonIcons c);
  premierSeasons := assignFlag (premierSeasons d) (p_premierSeasons c);
  tournaments := assignFlag (tournaments d) (p_tournaments c);
  logLevel := assignText (logLevel d) (p_logLevel c);
  source2Viewer := assignText (source2Viewer d) (p_source2Viewer c);
|}.

Definition ECON_PATH : string := "panorama/images/econ".

(** A [Record<string, string>] literal: the pairs in the order in which they
    are written, which is the order of [Object.keys]. *)
Definition neededDirectories : list (string * string) := [
  ("stickers", ECON_PATH +:+ "/stickers");
  ("patches", ECON_PATH +:+ "/patches");
  ("graffiti", ECON_PATH +:+ "/stickers/default");
  ("characters", ECON_PATH +:+ "/characters");
  ("musicKits", ECON_PATH +:+ "/music_kits");
  ("cases", ECON_PATH +:+ "/weapon_cases");
  ("tools", ECON_PATH +:+ "/tools");
  ("statusIcons", ECON_PATH +:+ "/status_icons");
  ("weapons", ECON_PATH +:+ "/default_generated");
  ("otherWeapons", ECON_PATH +:+ "/weapons");
  ("seasonIcons", ECON_PATH +:+ "/season_icons");
  ("premierSeasons", ECON_PATH +:+ "/premier_seasons");
  ("tournaments", ECON_PATH +:+ "/tournaments");
  ("setIcons", ECON_PATH +:+ "/set_icons")
].

Definition neededFiles : list (string * string) := [
  ("itemsGame", "scripts/items/items_game.txt");
  ("csgoEnglish", "resource/csgo_english.txt")
].

Definition keys (r : list (string * string)) : list string := map fst r.

(** [r[f]]; a missing key reads as [undefined], which a template prints as
    the word. *)
Fixpoint getProp (r : list (string * string)) (f : string) : string :=
  match r with
  | [] => "undefined"
  | (k, v) :: r' => if String.eqb k f then v else getProp r' f
  end.

(** [this.config[f as keyof Config] === true]: only a boolean field that
    holds [true] passes; the three string fields and unknown keys do not. *)
Definition configIsTrue (c : Config) (f : string) : bool :=
  if String.eqb f "stickers" then stickers c
  else if String.eqb f "patches" then patches c
  else if String.eqb f "graffiti" then graffiti c
  else if String.eqb f "characters" then characters c
  else if String.eqb f "musicKits" then musicKits c
  else if String.eqb f "cases" then cases c
  else if String.eqb f "tools" then tools c
  else if String.eqb f "statusIcons" then statusIcons c
  else if String.eqb f "weapons" then weapons c
  else if String.eqb f "otherWeapons" then otherWeapons c
  else if String.eqb f "setIcons" then setIcons c
  else if String.eqb f "seasonIcons" then seasonIcons c
  else if String.eqb f "premierSeasons" then premierSeasons c
  else if String.eqb f "tournaments" then tournaments c
  else false.

(** The value of [pathsToDump] in [dumpFiles]. *)
Definition pathsToDump (c : Config) : list string :=
  map (getProp neededDirectories)
      (List.filter (configIsTrue c) (keys neededDirectories))
  ++ map (getProp neededFiles) (keys neededFiles).

(** ** The world: file system, trace, environment *)

Inductive Level := error | warn | info | debug.

Inductive Node :=
| File (content : list Byte.byte)
| Dir.

(** Everything observable the program does, in the order in which it does
    it.  [Log] records a call of the winston logger (message and the extra
    argument, if any), whatever the configured level lets through;
    [ExecStart] a call of [exec] with the text of the command, [ExecExit]
    the call of its callback; [ExistsSync], [VpkLoad], [Readdir] and
    [Rename] the calls of the file system and of the archive library. *)
Inductive Event :=
| Log (lvl : Level) (msg : string) (meta : option string)
| ExistsSync (path : string)
| VpkLoad (path : string)
| ExecStart (cmd : string)
| ExecExit (cmd : string) (err : option string)
| Readdir (dir : string)
| Rename (oldPath newPath : string).

Record World := {
  fs : gmap string Node;
  trace : list Event;
}.

Inductive Outcome (A : Type) :=
| Returned (a : A)
| Thrown (e : string).
Arguments Returned {A} a.
Arguments Thrown {A} e.

(** What the program does not decide.  Each oracle sees the whole world, so
    an answer may depend on the history.
    - [platform]: the value of [os.platform()];
    - [vpk_load]: [new vpk(path).load()], the number of files of the archive
      or the exception it throws;
    - [exec_exit]: what the shell command had done to the file system when it
      ended, and the error handed to the callback of [exec], if any;
    - [next_exit]: which of the running commands ends next (an index into the
      list, taken modulo its length);
    - [readdir_fault], [rename_fault]: a failure of the call for a reason
      outside the model (permissions, a busy file, ...). *)
Record Env := {
  platform : string;
  vpk_load : World -> string -> Outcome nat;
  exec_exit : World -> string -> gmap string Node * option string;
  next_exit : World -> list string -> nat;
  readdir_fault : World -> string -> option string;
  rename_fault : World -> string -> string -> option string;
}.

(** ** The state-and-exception monad *)

Definition M (A : Type) : Type := World -> World * Outcome A.

Definition ret {A} (a : A) : M A := fun w => (w, Returned a).

Definition throw {A} (e : string) : M A := fun w => (w, Thrown e).

Definition bind {A B} (m : M A) (k : A -> M B) : M B :=
  fun w =>
    match m w with
    | (w', Returned a) => k a w'
    | (w', Thrown e) => (w', Thrown e)
    end.

(** [try { m } catch (e) { h e }]: the effects of [m] up to the throw stay. *)
Definition try_catch {A} (m : M A) (h : string -> M A) : M A :=
  fun w =>
    match m w with
    | (w', Returned a) => (w', Returned a)
    | (w', Thrown e) => h e w'
    end.

Declare Scope js_scope.
Delimit Scope js_scope with js.
Notation "x <- m ;; k" := (bind m (fun x => k))
  (at level 100, m at next level, right associativity) : js_scope.
Notation "m ;; k" := (bind m (fun _ => k))
  (at level 100, right associativity) : js_scope.
Local Open Scope js_scope.

Definition emit (e : Event) : M unit :=
  fun w => ({| fs := fs w; trace := trace w ++ [e] |}, Returned tt).

Definition log (lvl : Level) (msg : string) (meta : option string) : M unit :=
  emit (Log lvl msg meta).

Definition when (b : bool) (m : M unit) : M unit := if b then m else ret tt.

(** ** File system calls

    The file system maps relative paths to nodes.  A path names a node
    through [resolve]: it is normalised and a trailing separator is dropped,
    so that the spellings [data], [./data] and [data/] of one path reach the
    same node. *)

Definition resolve (path : string) : string :=
  let p := Path.normalize path in
  if (1 <? JS.strlen p) && JS.endsWith p "/" then JS.slice p 0 (JS.strlen p - 1)
  else p.

(** No node has a name with the character of code 0. *)
Definition lookupPath (w : World) (path : string) : option Node :=
  if JS.hasNul path then None else fs w !! resolve path.

(** [existsSync(path)]. *)
Definition existsSync (path : string) : M bool :=
  emit (ExistsSync path);;
  fun w => (w, Returned (bool_decide (is_Some (lookupPath w path)))).

(** A [Dirent] of [readdir(..., { withFileTypes: true })]. *)
Record Dirent := {
  name : string;
  parentPath : string;
  isFile : bool;
}.

Definition isFileNode (n : Node) : bool :=
  match n with File _ => true | Dir => false end.

(** [path] lies below the directory [dir]. *)
Definition isUnder (dir path : string) : bool :=
  let d := resolve dir in
  if String.eqb d "." then
    negb (String.prefix "/" path) && negb (String.eqb path ".")
  else if String.eqb d "/" then
    String.prefix "/" path && negb (String.eqb path "/")
  else String.prefix (d +:+ "/") path.

(** The entries below [dir], at any depth.  They come in the order of the
    keys of the map; Node gives them in the order of the operating system,
    and no statement below depends on the order. *)
Definition listing (m : gmap string Node) (dir : string) : list Dirent :=
  omap (fun '(path, n) =>
          if isUnder dir path then
            Some {| name := Path.basename path EmptyString;
                    parentPath := Path.dirname path;
                    isFile := isFileNode n |}
          else None)
       (map_to_list m).

(** [readdir(dir, { withFileTypes: true, recursive: true })]: rejects when
    [dir] is not a directory. *)
Definition readdir (E : Env) (dir : string) : M (list Dirent) :=
  fun w =>
    let w' := {| fs := fs w; trace := trace w ++ [Readdir dir] |} in
    match readdir_fault E w dir with
    | Some e => (w', Thrown e)
    | None =>
        match lookupPath w dir with
        | Some Dir => (w', Returned (listing (fs w) dir))
        | Some (File _) => (w', Thrown "ENOTDIR")
        | None => (w', Thrown "ENOENT")
        end
    end.

(** [rename(oldPath, newPath)] of [node:fs/promises], for a source that is a
    file, which is all the rename pass asks for: as Node documents it, a file
    that exists at [newPath] is replaced without notice, and a directory at
    [newPath] makes the call fail, and so does a path with the character of
    code 0.  Moving a directory is outside this model and reported as a
    failure. *)
Definition rename (E : Env) (oldPath newPath : string) : M unit :=
  fun w =>
    let called := trace w ++ [Rename oldPath newPath] in
    let failed e := ({| fs := fs w; trace := called |}, Thrown e) in
    match rename_fault E w oldPath newPath with
    | Some e => failed e
    | None =>
        if JS.hasNul oldPath || JS.hasNul newPath then
          failed "ERR_INVALID_ARG_VALUE"
        else
        match lookupPath w oldPath with
        | None => failed "ENOENT"
        | Some Dir => failed "directory source"
        | Some (File content) =>
            match lookupPath w newPath with
            | Some Dir => failed "EISDIR"
            | _ =>
                ({| fs := <[resolve newPath := File content]>
                            (delete (resolve oldPath) (fs w));
                    trace := called |},
                 Returned tt)
            end
        end
    end.

(** ** The class [VPKExtractor] *)

Section VPKExtractor.

Variable E : Env.
Variable config : Config.

Definition isWin32 : bool := String.eqb (platform E) "win32".

Definition vpkPath : string := directory config +:+ "/game/csgo/pak01_dir.vpk".

(** [loadVPK()]. *)
Definition loadVPK : M unit :=
  emit (VpkLoad vpkPath);;
  n <- (fun w => (w, vpk_load E w vpkPath));;
  log info ("Loaded VPK with " +:+ pretty n +:+ " files") None.

(** The command line built in the executor of each promise. *)
Definition command (path : string) : string :=
  let executable :=
    if isWin32 then
      JS.DQUOTE +:+ directory config +:+ JS.BACKSLASH +:+ source2Viewer config
        +:+ ".exe" +:+ JS.DQUOTE
    else directory config +:+ "/" +:+ source2Viewer config in
  let nullRedirect :=
    if isWin32 then "> nul 2>&1" else "> /dev/null 2>&1" in
  executable +:+ " --input " +:+ JS.DQUOTE +:+ directory config
    +:+ JS.BACKSLASH +:+ "game" +:+ JS.BACKSLASH +:+ "csgo" +:+ JS.BACKSLASH
    +:+ "pak01_dir.vpk" +:+ JS.DQUOTE
    +:+ " --vpk_filepath " +:+ JS.DQUOTE +:+ path +:+ JS.DQUOTE
    +:+ " -o " +:+ JS.DQUOTE +:+ directory config +:+ JS.DQUOTE
    +:+ " -d " +:+ nullRedirect.

(** The body of the executor [(resolve, reject) => { ... }] up to its call
    of [exec]: the debug line, then [exec(cmd, callback)].  [exec] throws at
    once when the text of the command holds the character of code 0; any
    other failure, a failure to start included, it reports through the
    callback.  A pending promise is represented by the path and the command
    it waits for. *)
Definition startExec (path : string) : M (string * string) :=
  log debug ("Dumping " +:+ path +:+ "...") None;;
  let cmd := command path in
  emit (ExecStart cmd);;
  if JS.hasNul cmd then throw "ERR_INVALID_ARG_VALUE" else ret (path, cmd).

(** [new Promise(executor)]: the executor runs at once; if it throws, the
    promise is rejected with the exception ([inl]), otherwise it stays
    pending until [resolve] is called ([inr]). *)
Definition newPromise {A} (executor : M A) : M (string + A) :=
  try_catch (a <- executor;; ret (inr a)) (fun e => ret (inl e)).

Fixpoint mapM {A B} (f : A -> M B) (l : list A) : M (list B) :=
  match l with
  | [] => ret []
  | a :: l' => b <- f a;; bs <- mapM f l';; ret (b :: bs)
  end.

(** The callback [(error) => { if (error) warn(...); resolve(); }] of the
    command that ends. *)
Definition execCallback (path cmd : string) : M unit :=
  err <- (fun w =>
            let '(m, err) := exec_exit E w cmd in
            ({| fs := m; trace := trace w ++ [ExecExit cmd err] |},
             Returned err));;
  match err with
  | Some message => log warn ("Warning extracting " +:+ path +:+ ":") (Some message)
  | None => ret tt
  end.

(** The wait for promises none of which is rejected: the callbacks
    run one at a time, in the order in which the commands end, until none
    is pending.  [fuel] is the number of pending promises; the index chosen
    is within the list, so the [None] branch is never taken. *)
Fixpoint awaitAll (fuel : nat) (pending : list (string * string)) : M unit :=
  match fuel with
  | O => ret tt
  | S fuel' =>
      fun w =>
        let i := (next_exit E w (map snd pending) mod length pending)%nat in
        match pending !! i with
        | None => (w, Returned tt)
        | Some (path, cmd) =>
            (execCallback path cmd;; awaitAll fuel' (delete i pending)) w
        end
  end.

(** The reason of the first promise that is rejected, and the promises that
    are pending. *)
Fixpoint firstRejection {A} (promises : list (string + A)) : option string :=
  match promises with
  | [] => None
  | inl e :: _ => Some e
  | inr _ :: promises' => firstRejection promises'
  end.

Definition pendingPromises {A} (promises : list (string + A)) : list A :=
  omap (fun p => match p with inl _ => None | inr a => Some a end) promises.

(** [await Promise.all(promises)]: if a promise is rejected, the await
    throws the reason of the first one, while the commands of the others run
    on; otherwise it waits for all of them.  (In [dumpFiles] the commands
    hold the character of code 0 all together or not at all, so that no
    command runs on when the await throws.) *)
Definition awaitPromises (promises : list (string + string * string))
    : M unit :=
  match firstRejection promises with
  | Some e => throw e
  | None =>
      let pending := pendingPromises promises in
      awaitAll (length pending) pending
  end.

(** [async dumpFiles()]. *)
Definition dumpFiles : M unit :=
  try_catch
    (let paths := pathsToDump config in
     log info ("Extracting " +:+ pretty (length paths)
               +:+ " directories/files...") None;;
     promises <- mapM (fun path => newPromise (startExec path)) paths;;
     awaitPromises promises)
    (fun err => log error "Error dumping files:" (Some err)).

(** One turn of [for (const file of files)]; the result is the new value of
    [renamedCount]. *)
Definition renameFile (file : Dirent) (renamedCount : nat) : M nat :=
  if isFile file && JS.endsWith (name file) "_png.png" then
    try_catch
      (let oldPath := Path.join [parentPath file; name file] in
       let newName := Path.basename (name file) "_png.png" +:+ ".png" in
       let newPath := Path.join [Path.dirname oldPath; newName] in
       rename E oldPath newPath;;
       let renamedCount' := S renamedCount in
       when (renamedCount' mod 100 =? 0)%nat
            (log debug ("Renamed " +:+ pretty renamedCount' +:+ " files...")
                 None);;
       ret renamedCount')
      (fun renameError =>
         log warn ("Failed to rename " +:+ name file +:+ ":")
             (Some renameError);;
         ret renamedCount)
  else ret renamedCount.

Fixpoint renameLoop (files : list Dirent) (renamedCount : nat) : M nat :=
  match files with
  | [] => ret renamedCount
  | file :: files' =>
      renamedCount' <- renameFile file renamedCount;;
      renameLoop files' renamedCount'
  end.

(** [async renameFiles()]. *)
Definition renameFiles : M unit :=
  try_catch
    (log info "Renaming _png.png files to .png..." None;;
     files <- readdir E (directory config);;
     renamedCount <- renameLoop files 0%nat;;
     log info ("Successfully renamed " +:+ pretty renamedCount
               +:+ " PNG files") None)
    (fun err => log error "Error renaming files:" (Some err)).

(** The constant [executable] of [extractPNGs]. *)
Definition executable : string :=
  if isWin32 then
    directory config +:+ "/" +:+ source2Viewer config +:+ ".exe"
  else directory config +:+ "/" +:+ source2Viewer config.

(** [async extractPNGs()]; an early [return] ends the [try] block. *)
Definition extractPNGs : M unit :=
  try_catch
    (found <- existsSync vpkPath;;
     if negb found then
       log error ("VPK file not found at: " +:+ vpkPath) None
     else
       found' <- existsSync executable;;
       if negb found' then
         log error ("Source2Viewer not found at: " +:+ executable) None;;
         log info "Please ensure Source2Viewer-CLI.exe is in the data directory"
             None
       else
         log info "Loading VPK files..." None;;
         loadVPK;;
         log info "Starting PNG extraction..." None;;
         dumpFiles;;
         renameFiles;;
         log info "PNG extraction completed successfully!" None)
    (fun err => log error "Error during extraction:" (Some err)).

End VPKExtractor.

(** ** Commands that never exit

    The source puts no bound on the time a command takes: [exec] is called
    without a timeout, and the promise of a command is resolved by the
    callback of the command and by nothing else.  In [dumpFiles] and
    [extractPNGs] above every command that is started ends.  Here they are
    once more, with the commands that [stalled] holds of never exiting, so
    that an [await] has a third way to go: besides returning and throwing,
    it may never come back ([None]). *)





Section Stalled.

Variable E : Env.
Variable config : Config.
Variable stalled : string -> bool.





End Stalled.

(** ** The archive reader

    The source hands the archive to the [vpk] package ([new vpk(path)],
    [load()]), whose code is not in the repository.  The reader below is the
    one the specification describes in its sections 3, 4.1 and 4.2. *)

Module VPK.

(** Modelled from the spec: the error kinds of section 7 (the parser of the
    [vpk] package is missing). *)
Inductive ParseError :=
  | InvalidSignature
  | UnsupportedVersion
  | OutOfBounds
  | UnterminatedString
  | MalformedEntry.

(** Modelled from the spec: the constants of section 6 (magic number, entry
    terminator, marker of a missing extension). *)
Definition SIGNATURE : Z := 0x55AA1234.
Definition ENTRY_TERMINATOR : Z := 0xFFFF.
Definition NO_EXTENSION : string := " ".

(** A read: from the cursor to the new cursor and a value or an error. *)
Definition Read (A : Type) : Type := nat -> nat * (ParseError + A).

Definition pure {A} (a : A) : Read A := fun pos => (pos, inr a).

Definition fail {A} (e : ParseError) : Read A := fun pos => (pos, inl e).

Definition andThen {A B} (r : Read A) (k : A -> Read B) : Read B :=
  fun pos =>
    match r pos with
    | (pos', inr a) => k a pos'
    | (pos', inl e) => (pos', inl e)
    end.

Notation "x <-- r ;;; k" := (andThen r (fun x => k))
    (at level 100, r at next level, right associativity).

Section Reader.

Variable buffer : list Byte.byte.

Definition byteAt (i : nat) : Z :=
  match buffer !! i with
  | Some b => Z.of_N (Byte.to_N b)
  | None => 0
  end.

(** Modelled from the spec: [readUInt8] of the Binary Reader of section 4.1
    (the reader of the [vpk] package is missing); it fails with
    [OutOfBounds] when no byte remains. *)
Definition readUInt8 : Read Z :=
  fun pos =>
    if (pos + 1 <=? length buffer)%nat then ((pos + 1)%nat, inr (byteAt pos))
    else (pos, inl OutOfBounds).

(** Modelled from the spec: [readUInt16LE] of section 4.1. *)
Definition readUInt16LE : Read Z :=
  fun pos =>
    if (pos + 2 <=? length buffer)%nat then
      ((pos + 2)%nat,
       inr (Z.lor (byteAt pos) (Z.shiftl (byteAt (pos + 1)) 8)))
    else (pos, inl OutOfBounds).

(** Modelled from the spec: [readUInt32LE] of section 4.1: four bytes,
    little-endian, the cursor advanced by 4, [OutOfBounds] if fewer than 4
    bytes remain. *)
Definition readUInt32LE : Read Z :=
  fun pos =>
    if (pos + 4 <=? length buffer)%nat then
      ((pos + 4)%nat,
       inr (Z.lor (byteAt pos)
              (Z.lor (Z.shiftl (byteAt (pos + 1)) 8)
                 (Z.lor (Z.shiftl (byteAt (pos + 2)) 16)
                    (Z.shiftl (byteAt (pos + 3)) 24)))))
    else (pos, inl OutOfBounds).

(** Modelled from the spec: [readInt32LE] of section 4.1, the same four
    bytes read as a two's complement number. *)
Definition readInt32LE : Read Z :=
  u <-- readUInt32LE;;;
  pure (if Z.testbit u 31 then u - 2 ^ 32 else u).

(** The bytes from the cursor up to the first zero byte, and the cursor
    past it; [None] when the buffer ends first. *)
Fixpoint scanString (bytes : list Byte.byte) (pos : nat)
      : option (list Byte.byte * nat) :=
  match bytes with
  | [] => None
  | b :: bytes' =>
      if Byte.eqb b Byte.x00 then Some ([], S pos)
      else
        match scanString bytes' (S pos) with
        | Some (str, pos') => Some (b :: str, pos')
        | None => None
        end
  end.

(** Modelled from the spec: [readNullTerminatedString] of section 4.1; the
    string is kept as its bytes. *)
Definition readNullTerminatedString : Read string :=
  fun pos =>
    match scanString (drop pos buffer) pos with
    | Some (str, pos') => (pos', inr (String.string_of_list_byte str))
    | None => (pos, inl UnterminatedString)
    end.

(** Modelled from the spec: [tell] and [seek] of section 4.1. *)
Definition tell : Read nat := fun pos => (pos, inr pos).

Definition seek (offset : nat) : Read unit := fun _ => (offset, inr tt).

(** Modelled from the spec: the Archive Header of section 3; [v2Lengths]
    holds the embedded chunk, chunk hash, self hash and signature lengths of
    a version 2 header. *)
Record Header := {
    version : Z;
    treeLength : Z;
    v2Lengths : option (Z * Z * Z * Z);
  }.

(** Modelled from the spec: the Entry of section 3. *)
Record Entry := {
    path : string;
    crc32 : Z;
    preloadBytes : Z;
    archiveIndex : Z;
    entryOffset : Z;
    entryLength : Z;
  }.

(** Modelled from the spec: steps 1 and 2 of the algorithm of section 4.2:
    the magic number is read and compared first, then the version and the
    tree length, then the four further fields of version 2. *)
Definition parseHeader : Read Header :=
  magic <-- readUInt32LE;;;
  if negb (magic =? SIGNATURE) then fail InvalidSignature
  else
    version <-- readUInt32LE;;;
    treeLength <-- readUInt32LE;;;
    if version =? 2 then
      embeddedChunkLength <-- readUInt32LE;;;
      chunkHashLength <-- readUInt32LE;;;
      selfHashLength <-- readUInt32LE;;;
      signatureLength <-- readUInt32LE;;;
      pure {| version := version; treeLength := treeLength;
              v2Lengths := Some (embeddedChunkLength, chunkHashLength,
                                 selfHashLength, signatureLength) |}
    else if version =? 1 then
      pure {| version := version; treeLength := treeLength;
              v2Lengths := None |}
    else fail UnsupportedVersion.

Fixpoint backslashToSlash (s : string) : string :=
  match s with
  | EmptyString => EmptyString
  | String c s' =>
      String (if Ascii.eqb c "092"%char then "/"%char else c)
             (backslashToSlash s')
  end.

(** Modelled from the spec: the entry record of step 3 of section 4.2: the
    path is built from the normalised directory, the file name and the
    extension, the fields are read, the terminator is checked, and the
    preload bytes are skipped. *)
Definition readEntry (extension dir filename : string) : Read Entry :=
  let dir' :=
    if String.eqb dir " " then EmptyString else backslashToSlash dir in
  let path :=
    (if String.eqb dir' EmptyString then EmptyString else dir' +:+ "/")
    +:+ filename
    +:+ (if String.eqb extension NO_EXTENSION then EmptyString
         else "." +:+ extension) in
  crc32 <-- readUInt32LE;;;
  preloadBytes <-- readUInt16LE;;;
  archiveIndex <-- readUInt16LE;;;
  entryOffset <-- readUInt32LE;;;
  entryLength <-- readUInt32LE;;;
  terminator <-- readUInt16LE;;;
  if negb (terminator =? ENTRY_TERMINATOR) then fail MalformedEntry
  else
    _ <-- (if 0 <? preloadBytes then
             pos <-- tell;;; seek (pos + Z.to_nat preloadBytes)
           else pure tt);;;
    pure {| path := path; crc32 := crc32; preloadBytes := preloadBytes;
            archiveIndex := archiveIndex; entryOffset := entryOffset;
            entryLength := entryLength |}.

(** Modelled from the spec: the innermost loop of step 3 of section 4.2,
    over the file names of a directory, ended by an empty name.  Every turn
    consumes at least the terminator of the string it reads, so the
    [length buffer + 1] turns of fuel the callers give are never used up. *)
Fixpoint readFiles (fuel : nat) (extension dir : string)
      (acc : list Entry) : Read (list Entry) :=
  match fuel with
  | O => fail OutOfBounds
  | S fuel' =>
      filename <-- readNullTerminatedString;;;
      if String.eqb filename EmptyString then pure acc
      else
        entry <-- readEntry extension dir filename;;;
        readFiles fuel' extension dir (acc ++ [entry])
  end.

(** Modelled from the spec: the middle loop of step 3, over the directories
    of an extension. *)
Fixpoint readDirectories (fuel : nat) (extension : string)
      (acc : list Entry) : Read (list Entry) :=
  match fuel with
  | O => fail OutOfBounds
  | S fuel' =>
      dir <-- readNullTerminatedString;;;
      if String.eqb dir EmptyString then pure acc
      else
        acc' <-- readFiles (S (length buffer)) extension dir acc;;;
        readDirectories fuel' extension acc'
  end.

(** Modelled from the spec: the outer loop of step 3, over the extensions. *)
Fixpoint readExtensions (fuel : nat) (acc : list Entry)
      : Read (list Entry) :=
  match fuel with
  | O => fail OutOfBounds
  | S fuel' =>
      extension <-- readNullTerminatedString;;;
      if String.eqb extension EmptyString then pure acc
      else
        acc' <-- readDirectories (S (length buffer)) extension acc;;;
        readExtensions fuel' acc'
  end.

(** Modelled from the spec: [parse] of section 4.2 (the parser of the [vpk]
    package is missing); the cursor starts at 0 and the result carries the
    cursor at which the parse ended. *)
Definition parse : nat * (ParseError + (Header * list Entry)) :=
  (header <-- parseHeader;;;
   entries <-- readExtensions (S (length buffer)) [];;;
   pure (header, entries)) 0%nat.

End Reader.

Definition errorName (e : ParseError) : string :=
  match e with
  | InvalidSignature => "InvalidSignature"
  | UnsupportedVersion => "UnsupportedVersion"
  | OutOfBounds => "OutOfBounds"
  | UnterminatedString => "UnterminatedString"
  | MalformedEntry => "MalformedEntry"
  end.

(** Modelled from the spec: [load()] of the [vpk] package, which is missing:
    the archive file is read and parsed as in section 4.2, a parse error is
    thrown, and [files.length] is the number of entries. *)
Definition load (w : World) (path : string) : Outcome nat :=
  match lookupPath w path with
  | Some (File content) =>
      match parse content with
      | (_, inr (_, entries)) => Returned (length entries)
      | (_, inl e) => Thrown (errorName e)
      end
  | Some Dir => Thrown "EISDIR"
  | None => Thrown "ENOENT"
  end.

End VPK.

(** ** Sample environments and worlds *)

(** The argument of [new VPKExtractor({ ... })] at the end of the source. *)
Definition mainOptions : PartialConfig := {|
  p_directory := Omitted;
  p_stickers := Given false;
  p_patches := Given false;
  p_graffiti := Given false;
  p_characters := Given false;
  p_musicKits := Given false;
  p_cases := Given false;
  p_tools := Given false;
  p_statusIcons := Given true;
  p_weapons := Given false;
  p_otherWeapons := Given false;
  p_setIcons := Given false;
  p_seasonIcons := Given false;
  p_premierSeasons := Given true;
  p_tournaments := Given false;
  p_logLevel := Omitted;
  p_source2Viewer := Omitted;
|}.

Definition mainConfig : Config := assignConfig DEFAULT_CONFIG mainOptions.

(** Options that hold the key [stickers] with the value [undefined] and
    nothing else. *)
Definition undefinedOptions : PartialConfig := {|
  p_directory := Omitted;
  p_stickers := Undefined;
  p_patches := Omitted;
  p_graffiti := Omitted;
  p_characters := Omitted;
  p_musicKits := Omitted;
  p_cases := Omitted;
  p_tools := Omitted;
  p_statusIcons := Omitted;
  p_weapons := Omitted;
  p_otherWeapons := Omitted;
  p_setIcons := Omitted;
  p_seasonIcons := Omitted;
  p_premierSeasons := Omitted;
  p_tournaments := Omitted;
  p_logLevel := Omitted;
  p_source2Viewer := Omitted;
|}.

(** The configuration of the source with a name of the tool that holds the
    character of code 0. *)
Definition nulConfig : Config := assignConfig DEFAULT_CONFIG {|
  p_directory := Omitted;
  p_stickers := Given false;
  p_patches := Given false;
  p_graffiti := Given false;
  p_characters := Given false;
  p_musicKits := Given false;
  p_cases := Given false;
  p_tools := Given false;
  p_statusIcons := Given true;
  p_weapons := Given false;
  p_otherWeapons := Given false;
  p_setIcons := Given false;
  p_seasonIcons := Given false;
  p_premierSeasons := Given true;
  p_tournaments := Given false;
  p_logLevel := Omitted;
  p_source2Viewer := Given (String "000"%char "viewer");
|}.

(** An environment in which nothing goes wrong: every command ends without
    error and leaves the file system as it is, in the order of the starts. *)
Definition calmEnv : Env := {|
  platform := "linux";
  vpk_load := VPK.load;
  exec_exit := fun w _ => (fs w, None);
  next_exit := fun _ _ => 0%nat;
  readdir_fault := fun _ _ => None;
  rename_fault := fun _ _ _ => None;
|}.

(** An environment in which the commands end in the reverse order of their
    starts and the command that dumps the status icons fails. *)
Definition flakyEnv : Env := {|
  platform := "linux";
  vpk_load := fun _ _ => Returned 2%nat;
  exec_exit := fun w cmd =>
    (fs w,
     if String.eqb cmd
          (command calmEnv mainConfig "panorama/images/econ/status_icons")
     then Some "Command failed" else None);
  next_exit := fun _ running => (length running - 1)%nat;
  readdir_fault := fun _ _ => None;
  rename_fault := fun _ _ _ => None;
|}.

(** A version 1 archive with the two entries [p/q/s1.png] (two preload
    bytes) and [p/q/s2.png]. *)
Definition sampleArchive : list Byte.byte :=
  let x := Byte.x00 in
  [Byte.x34; Byte.x12; Byte.xaa; Byte.x55;  Byte.x01; x; x; x;  x; x; x; x;
   Byte.x70; Byte.x6e; Byte.x67; x;
   Byte.x70; Byte.x2f; Byte.x71; x;
   Byte.x73; Byte.x31; x;
   Byte.x01; x; x; x;  Byte.x02; x;  x; x;  Byte.x05; x; x; x;
   Byte.x64; x; x; x;  Byte.xff; Byte.xff;  Byte.xaa; Byte.xbb;
   Byte.x73; Byte.x32; x;
   Byte.x01; x; x; x;  x; x;  x; x;  Byte.x05; x; x; x;
   Byte.x64; x; x; x;  Byte.xff; Byte.xff;
   x; x; x].

(** The archive with the first byte of its magic number changed. *)
Definition damagedArchive : list Byte.byte :=
  Byte.x35 :: tail sampleArchive.

(** A data directory after an extraction: [a_png.png] next to an older
    [a.png], a file named exactly [_png.png], and a subdirectory. *)
Definition sampleWorld : World := {|
  fs := list_to_map [
    ("data", Dir);
    ("data/game", Dir);
    ("data/game/csgo", Dir);
    ("data/game/csgo/pak01_dir.vpk", File sampleArchive);
    ("data/Source2Viewer-CLI", File []);
    ("data/a_png.png", File [Byte.x01]);
    ("data/a.png", File [Byte.x02]);
    ("data/_png.png", File [Byte.x03]);
    ("data/sub", Dir);
    ("data/sub/zz_png.png", File [Byte.x04])
  ];
  trace := [];
|}.

(** A directory that holds a file [d_png.png] and a directory [d.png]. *)
Definition blockedWorld : World := {|
  fs := list_to_map [
    ("data", Dir);
    ("data/d_png.png", File [Byte.x01]);
    ("data/d.png", Dir)
  ];
  trace := [];
|}.

(** A directory in which the target of a rename is already taken. *)
Definition collisionWorld : World := {|
  fs := list_to_map [
    ("data", Dir);
    ("data/a_png.png", File [Byte.x01]);
    ("data/a.png", File [Byte.x02])
  ];
  trace := [];
|}.

Definition emptyWorld : World := {| fs := ∅; trace := [] |}.

(** The entry of a file [a_png.png] of the data directory, and the entry of
    a file whose whole name is the marker suffix, in the directory [parent]. *)
Definition markedFile : Dirent :=
  {| name := "a_png.png"; parentPath := "data"; isFile := true |}.

Definition bareMarker (parent : string) : Dirent :=
  {| name := "_png.png"; parentPath := parent; isFile := true |}.

(** ** Vocabulary of the statements *)

(** A directory entry name holds no path separator. *)
Fixpoint hasSeparator (s : string) : bool :=
  match s with
  | EmptyString => false
  | String c s' => Ascii.eqb c Path.CHAR_FORWARD_SLASH || hasSeparator s'
  end.

(** [m], started in [w], ends in [w'] with outcome [r] after adding the
    events [t] to the trace. *)
Definition runs {A} (m : M A) (w : World) (t : list Event) (w' : World)
    (r : Outcome A) : Prop :=
  m w = (w', r) /\ trace w' = trace w ++ t.

Definition isExecEvent (e : Event) : bool :=
  match e with
  | ExecStart _ | ExecExit _ _ => true
  | _ => false
  end.

(** The events of the rename pass that touch the file system. *)
Definition isRenamePassEvent (e : Event) : bool :=
  match e with
  | Readdir _ | Rename _ _ => true
  | _ => false
  end.

Definition isCheckOrLog (e : Event) : bool :=
  match e with
  | ExistsSync _ | Log _ _ _ => true
  | _ => false
  end.

(** The commands started, and the commands ended, in the order of the
    trace. *)
Definition execStarts (t : list Event) : list string :=
  omap (fun e => match e with ExecStart cmd => Some cmd | _ => None end) t.

Definition execExits (t : list Event) : list string :=
  omap (fun e => match e with ExecExit cmd _ => Some cmd | _ => None end) t.

(** The pairs of paths handed to [rename], in the order of the trace. *)
Definition renameCalls (t : list Event) : list (string * string) :=
  omap (fun e => match e with Rename o n => Some (o, n) | _ => None end) t.

Section TraceShapes.

Variable E : Env.
Variable config : Config.

(** What the executor of the promise of [path] adds to the trace. *)
Definition startEvents (path : string) : list Event :=
  [Log debug ("Dumping " +:+ path +:+ "...") None;
   ExecStart (command E config path)].

(** What the callback of the command of path [x.1] adds when the command
    ends with the error [x.2]. *)
Definition exitEvents (x : string * option string) : list Event :=
  ExecExit (command E config x.1) x.2
  :: match x.2 with
     | Some message =>
         [Log warn ("Warning extracting " +:+ x.1 +:+ ":") (Some message)]
     | None => []
     end.

(** The trace of [dumpFiles] when the commands end in the order [exits]. *)
Definition dumpTrace (exits : list (string * option string)) : list Event :=
  Log info ("Extracting " +:+ pretty (length (pathsToDump config))
            +:+ " directories/files...") None
  :: flat_map startEvents (pathsToDump config)
  ++ flat_map exitEvents exits.

(** Whether the texts the configuration puts into every command hold the
    character of code 0. *)
Definition commandsHaveNul : bool :=
  JS.hasNul (directory config) || JS.hasNul (source2Viewer config).

(** The trace of [dumpFiles] when [exec] refuses the commands: every
    executor runs up to its call of [exec], and the handler of [dumpFiles]
    logs what the await throws. *)
Definition refusedDumpTrace : list Event :=
  Log info ("Extracting " +:+ pretty (length (pathsToDump config))
            +:+ " directories/files...") None
  :: flat_map startEvents (pathsToDump config)
  ++ [Log error "Error dumping files:" (Some "ERR_INVALID_ARG_VALUE")].

(** The condition of the [if] in the loop of [renameFiles], and the two
    paths it computes. *)
Definition isRenamed (file : Dirent) : bool :=
  isFile file && JS.endsWith (name file) "_png.png".

Definition oldPathOf (file : Dirent) : string :=
  Path.join [parentPath file; name file].

Definition newPathOf (file : Dirent) : string :=
  Path.join [Path.dirname (oldPathOf file);
             Path.basename (name file) "_png.png" +:+ ".png"].

(** The debug line written after every hundredth rename. *)
Definition progressLine (renamedCount : nat) : list Event :=
  if (renamedCount mod 100 =? 0)%nat then
    [Log debug ("Renamed " +:+ pretty renamedCount +:+ " files...") None]
  else [].

(** What one turn of the loop adds to the trace: nothing for a file that
    is passed over; otherwise the call of [rename], followed by nothing, by
    the progress line, or by the warning of a failed call. *)
Definition fileTrace (file : Dirent) (t : list Event) : Prop :=
  if isRenamed file then
    exists tail,
      t = Rename (oldPathOf file) (newPathOf file) :: tail /\
      (tail = []
       \/ (exists n : nat,
             tail = [Log debug ("Renamed " +:+ pretty n +:+ " files...") None])
       \/ (exists e,
             tail = [Log warn ("Failed to rename " +:+ name file +:+ ":")
                         (Some e)]))
  else t = [].

(** The trace of [renameFiles] over the listing [files]. *)
Definition renamePassTrace (files : list Dirent) (t : list Event) : Prop :=
  exists rest,
    t = Log info "Renaming _png.png files to .png..." None
        :: Readdir (directory config) :: rest /\
    ((exists e, rest = [Log error "Error renaming files:" (Some e)])
     \/ (exists (ts : list (list Event)) (n : nat),
           Forall2 fileTrace files ts /\
           rest = concat ts
                  ++ [Log info ("Successfully renamed " +:+ pretty n
                                +:+ " PNG files") None])).

(** The four ways a run of [extractPNGs] goes, with the trace of each. *)
Inductive runTrace (w : World) : list Event -> Prop :=
| run_no_archive :
    lookupPath w (vpkPath config) = None ->
    runTrace w
      [ExistsSync (vpkPath config);
       Log error ("VPK file not found at: " +:+ vpkPath config) None]
| run_no_tool :
    is_Some (lookupPath w (vpkPath config)) ->
    lookupPath w (executable E config) = None ->
    runTrace w
      [ExistsSync (vpkPath config);
       ExistsSync (executable E config);
       Log error ("Source2Viewer not found at: " +:+ executable E config) None;
       Log info "Please ensure Source2Viewer-CLI.exe is in the data directory"
           None]
| run_load_failed e :
    is_Some (lookupPath w (vpkPath config)) ->
    is_Some (lookupPath w (executable E config)) ->
    (exists w', vpk_load E w' (vpkPath config) = Thrown e) ->
    runTrace w
      [ExistsSync (vpkPath config);
       ExistsSync (executable E config);
       Log info "Loading VPK files..." None;
       VpkLoad (vpkPath config);
       Log error "Error during extraction:" (Some e)]
| run_complete (n : nat) exits files renamed :
    is_Some (lookupPath w (vpkPath config)) ->
    is_Some (lookupPath w (executable E config)) ->
    map fst exits ≡ₚ pathsToDump config ->
    renamePassTrace files renamed ->
    runTrace w
      ([ExistsSync (vpkPath config);
        ExistsSync (executable E config);
        Log info "Loading VPK files..." None;
        VpkLoad (vpkPath config);
        Log info ("Loaded VPK with " +:+ pretty n +:+ " files") None;
        Log info "Starting PNG extraction..." None]
       ++ dumpTrace exits
       ++ renamed
       ++ [Log info "PNG extraction completed successfully!" None]).

End TraceShapes.


(** ** Further vocabulary *)

(** What an options object holds under the key [f] of a category; [Omitted]
    also when [f] is no category. *)
Definition optionFlag (o : PartialConfig) (f : string) : Field bool :=
  if String.eqb f "stickers" then p_stickers o
  else if String.eqb f "patches" then p_patches o
  else if String.eqb f "graffiti" then p_graffiti o
  else if String.eqb f "characters" then p_characters o
  else if String.eqb f "musicKits" then p_musicKits o
  else if String.eqb f "cases" then p_cases o
  else if String.eqb f "tools" then p_tools o
  else if String.eqb f "statusIcons" then p_statusIcons o
  else if String.eqb f "weapons" then p_weapons o
  else if String.eqb f "otherWeapons" then p_otherWeapons o
  else if String.eqb f "setIcons" then p_setIcons o
  else if String.eqb f "seasonIcons" then p_seasonIcons o
  else if String.eqb f "premierSeasons" then p_premierSeasons o
  else if String.eqb f "tournaments" then p_tournaments o
  else Omitted.

(** The calls of [log.warn] and of [log.error] in a trace. *)
Definition warnings (t : list Event) : list (string * option string) :=
  omap (fun e => match e with
                 | Log warn msg meta => Some (msg, meta)
                 | _ => None
                 end) t.

Definition errors (t : list Event) : list (string * option string) :=
  omap (fun e => match e with
                 | Log error msg meta => Some (msg, meta)
                 | _ => None
                 end) t.


(** The [--input] argument of every command: the archive path written with
    backslashes, whatever the platform. *)
Definition inputArgument (config : Config) : string :=
  directory config +:+ JS.BACKSLASH +:+ "game" +:+ JS.BACKSLASH +:+ "csgo"
  +:+ JS.BACKSLASH +:+ "pak01_dir.vpk".

(** An environment in which the archive cannot be loaded. *)
Definition brokenArchiveEnv : Env := {|
  platform := "linux";
  vpk_load := fun _ _ => Thrown "corrupt archive";
  exec_exit := fun w _ => (fs w, None);
  next_exit := fun _ _ => 0%nat;
  readdir_fault := fun _ _ => None;
  rename_fault := fun _ _ _ => None;
|}.

(** An environment in which the data directory cannot be listed and every
    command fails. *)
Definition hostileEnv : Env := {|
  platform := "linux";
  vpk_load := fun _ _ => Returned 2%nat;
  exec_exit := fun w _ => (fs w, Some "Command failed");
  next_exit := fun _ _ => 0%nat;
  readdir_fault := fun _ _ => Some "EACCES";
  rename_fault := fun _ _ _ => None;
|}.

(** A data directory in which no name carries the marker suffix. *)
Definition cleanWorld : World := {|
  fs := list_to_map [
    ("data", Dir);
    ("data/a.png", File [Byte.x02]);
    ("data/sub", Dir);
    ("data/sub/b.png", File [Byte.x05])
  ];
  trace := [];
|}.


(** ** Vocabulary of path normalisation

    [normalizeString] reads a path one character at a time and acts at each
    separator on the segment that the separator closes.  The definitions
    below name that reading, segment by segment, so that the result of
    [join] can be stated for every parent directory. *)







(** A segment appended to a normalised path. *)
Definition glue (res segment : string) : string :=
  if 0 <? JS.strlen res then res +:+ "/" +:+ segment else segment.

(** A segment that names an entry: not empty, without separator, and
    neither [.] nor [..]. *)
Definition plain (s : string) : Prop :=
  hasSeparator s = false /\ s <> EmptyString /\ s <> "." /\ s <> "..".

(** The results of [normalizeString]: nothing, or steps up (when they are
    allowed) followed by plain segments, with the length of the last
    segment. *)
Inductive Ups : string -> Prop :=
| ups_none : Ups EmptyString
| ups_more r : Ups r -> Ups (glue r "..").

Inductive Normal (allowAboveRoot : bool) : string -> Z -> Prop :=
| normal_empty : Normal allowAboveRoot EmptyString 0
| normal_ups r :
    allowAboveRoot = true -> Ups r -> Normal allowAboveRoot (glue r "..") 2
| normal_segment r l s :
    Normal allowAboveRoot r l -> plain s ->
    Normal allowAboveRoot (glue r s) (JS.strlen s).

(** * Properties *)

(** ** Strings *)

Section StringFacts.

Implicit Types s t : string.

Lemma append_nil t : EmptyString +:+ t = t.
Proof. reflexivity. Qed.

Lemma append_cons c s t : String c s +:+ t = String c (s +:+ t).
Proof. reflexivity. Qed.

Lemma hasNul_app (s t : string) :
  JS.hasNul (s +:+ t) = JS.hasNul s || JS.hasNul t.
Proof.
  induction s as [|c s IH]; [reflexivity|].
  rewrite append_cons. cbn [JS.hasNul]. now rewrite IH, orb_assoc.
Qed.

Lemma string_length_app s t :
  String.length (s +:+ t) = (String.length s + String.length t)%nat.
Proof.
  induction s as [|c s IH]; [reflexivity|].
  rewrite append_cons. simpl. now rewrite IH.
Qed.

Lemma strlen_app s t : JS.strlen (s +:+ t) = JS.strlen s + JS.strlen t.
Proof. unfold JS.strlen. rewrite string_length_app. lia. Qed.

Lemma strlen_nonneg s : 0 <= JS.strlen s.
Proof. unfold JS.strlen. lia. Qed.

Lemma append_assoc s t u : (s +:+ t) +:+ u = s +:+ (t +:+ u).
Proof.
  induction s as [|c s IH]; [reflexivity|].
  rewrite !append_cons. now rewrite IH.
Qed.

Lemma get_app_r s t n :
  String.get (String.length s + n) (s +:+ t) = String.get n t.
Proof.
  induction s as [|c s IH]; [reflexivity|].
  rewrite append_cons. simpl. exact IH.
Qed.













End StringFacts.

(** ** [normalizeString], segment by segment *)

Section NormalizeFacts.

Implicit Types s t r cur pre rest path : string.












(** *** The loop reads the path as [feed] does *)

Variable path : string.
Variable allow : bool.




End NormalizeFacts.


(** *** Segments *)

Section SegmentFacts.

Implicit Types s t r cur rest path : string.

Variable allow : bool.






(** *** Normal forms *)







Lemma strlen_glue r s :
  JS.strlen (glue r s)
  = (if 0 <? JS.strlen r then JS.strlen r + 1 else 0) + JS.strlen s.
Proof.
  unfold glue. destruct (0 <? JS.strlen r); [|lia].
  rewrite !strlen_app. change (JS.strlen "/") with 1. lia.
Qed.












Lemma Normal_ups r :
  allow = true -> Ups r ->
  Normal allow r (if 0 <? JS.strlen r then 2 else 0).
Proof.
  intros Hallow [|r0 Hups]; [constructor|].
  rewrite strlen_glue. change (JS.strlen "..") with 2.
  pose proof (strlen_nonneg r0).
  replace (0 <? (if 0 <? JS.strlen r0 then JS.strlen r0 + 1 else 0) + 2)
    with true by (destruct (0 <? JS.strlen r0); symmetry; apply Z.ltb_lt; lia).
  now constructor.
Qed.








End SegmentFacts.

(** *** [dirname] and [join] on the path of an entry *)

Section EntryFacts.

Implicit Types s t r y p : string.













End EntryFacts.

Section BasenameOfEntry.

Implicit Types s y : string.



End BasenameOfEntry.

(** ** [basename] on the names the rename pass meets *)

Section BasenameFacts.

Variables stem suffix : string.
Hypothesis Hsep : hasSeparator (stem +:+ suffix) = false.

Local Abbreviation k := (String.length stem).
Local Abbreviation m := (String.length suffix).




End BasenameFacts.

(** [basename(name, name)] is the empty string: the test [suffix === path]
    comes before the loop. *)
Lemma basename_of_suffix_itself suffix :
  suffix <> EmptyString -> Path.basename suffix suffix = EmptyString.
Proof.
  intros H. unfold Path.basename.
  assert (0 < JS.strlen suffix)
    by (unfold JS.strlen; destruct suffix; simpl; [easy | lia]).
  destruct (Z.ltb_spec 0 (JS.strlen suffix)); [|lia].
  rewrite Z.leb_refl, String.eqb_refl. reflexivity.
Qed.

(** ** Running the monad *)

Section RunFacts.

Context {A B : Type}.

Lemma runs_ret (a : A) w : runs (ret a) w [] w (Returned a).
Proof. split; [reflexivity | now rewrite app_nil_r]. Qed.

Lemma runs_throw (e : string) w : runs (@throw A e) w [] w (Thrown e).
Proof. split; [reflexivity | now rewrite app_nil_r]. Qed.

Lemma runs_bind (m : M A) (k : A -> M B) w t1 w1 a t2 w2 r :
  runs m w t1 w1 (Returned a) ->
  runs (k a) w1 t2 w2 r ->
  runs (bind m k) w (t1 ++ t2) w2 r.
Proof.
  intros [Hm Ht1] [Hk Ht2]. split.
  - unfold bind. now rewrite Hm.
  - now rewrite Ht2, Ht1, app_assoc.
Qed.

Lemma runs_bind_quiet_l (m : M A) (k : A -> M B) w w1 a t w2 r :
  runs m w [] w1 (Returned a) ->
  runs (k a) w1 t w2 r ->
  runs (bind m k) w t w2 r.
Proof. intros Hm Hk. apply (runs_bind _ _ _ _ _ _ _ _ _ Hm Hk). Qed.

Lemma runs_bind_quiet_r (m : M A) (k : A -> M B) w t w1 a w2 r :
  runs m w t w1 (Returned a) ->
  runs (k a) w1 [] w2 r ->
  runs (bind m k) w t w2 r.
Proof.
  intros Hm Hk. rewrite <- (app_nil_r t).
  apply (runs_bind _ _ _ _ _ _ _ _ _ Hm Hk).
Qed.

Lemma runs_bind_thrown (m : M A) (k : A -> M B) w t w1 e :
  runs m w t w1 (Thrown e) ->
  runs (bind m k) w t w1 (Thrown e).
Proof. intros [Hm Ht]. split; [|exact Ht]. unfold bind. now rewrite Hm. Qed.

Lemma runs_try_returned (m : M A) h w t w1 a :
  runs m w t w1 (Returned a) ->
  runs (try_catch m h) w t w1 (Returned a).
Proof.
  intros [Hm Ht]. split; [|exact Ht]. unfold try_catch. now rewrite Hm.
Qed.

Lemma runs_try_thrown (m : M A) h w t1 w1 e t2 w2 r :
  runs m w t1 w1 (Thrown e) ->
  runs (h e) w1 t2 w2 r ->
  runs (try_catch m h) w (t1 ++ t2) w2 r.
Proof.
  intros [Hm Ht1] [Hh Ht2]. split.
  - unfold try_catch. now rewrite Hm.
  - now rewrite Ht2, Ht1, app_assoc.
Qed.

End RunFacts.

Lemma runs_emit e w :
  runs (emit e) w [e] {| fs := fs w; trace := trace w ++ [e] |} (Returned tt).
Proof. split; reflexivity. Qed.

Lemma runs_log lvl msg meta w :
  runs (log lvl msg meta) w [Log lvl msg meta]
       {| fs := fs w; trace := trace w ++ [Log lvl msg meta] |} (Returned tt).
Proof. apply runs_emit. Qed.

Lemma runs_existsSync path w :
  runs (existsSync path) w [ExistsSync path]
       {| fs := fs w; trace := trace w ++ [ExistsSync path] |}
       (Returned (bool_decide (is_Some (lookupPath w path)))).
Proof. split; reflexivity. Qed.

(** ** The fan-out and the fan-in of [dumpFiles] *)

Section DumpFacts.

Variable E : Env.
Variable config : Config.

Lemma hasNul_command path :
  JS.hasNul (command E config path)
  = commandsHaveNul config || JS.hasNul path.
Proof.
  unfold command, commandsHaveNul. cbv zeta.
  destruct (isWin32 E); rewrite !hasNul_app;
    destruct (JS.hasNul (directory config)),
             (JS.hasNul (source2Viewer config)), (JS.hasNul path);
    reflexivity.
Qed.

Lemma hasNul_requested path :
  In path (pathsToDump config) ->
  JS.hasNul (command E config path) = commandsHaveNul config.
Proof.
  intros Hin. rewrite hasNul_command.
  assert (Hpath : JS.hasNul path = false); [|rewrite Hpath; apply orb_false_r].
  unfold pathsToDump in Hin. apply in_app_or in Hin as [Hin | Hin].
  - apply in_map_iff in Hin as (key & <- & Hin).
    apply filter_In in Hin as [Hin _]. cbn in Hin.
    repeat (destruct Hin as [<- | Hin]; [reflexivity|]). destruct Hin.
  - cbn in Hin.
    repeat (destruct Hin as [<- | Hin]; [reflexivity|]). destruct Hin.
Qed.

(** An executor whose command [exec] accepts leaves its promise pending. *)
Lemma runs_startExec path w :
  JS.hasNul (command E config path) = false ->
  runs (newPromise (startExec E config path)) w (startEvents E config path)
       {| fs := fs w; trace := trace w ++ startEvents E config path |}
       (Returned (inr (path, command E config path))).
Proof.
  intros Hnul. split; [|reflexivity].
  unfold newPromise, try_catch, startExec, bind, log, emit, ret. simpl.
  rewrite Hnul. simpl. now rewrite <- app_assoc.
Qed.

(** An executor whose command [exec] refuses leaves its promise rejected. *)
Lemma runs_startExec_refused path w :
  JS.hasNul (command E config path) = true ->
  runs (newPromise (startExec E config path)) w (startEvents E config path)
       {| fs := fs w; trace := trace w ++ startEvents E config path |}
       (Returned (inl "ERR_INVALID_ARG_VALUE")).
Proof.
  intros Hnul. split; [|reflexivity].
  unfold newPromise, try_catch, startExec, bind, log, emit, ret, throw. simpl.
  rewrite Hnul. simpl. now rewrite <- app_assoc.
Qed.

(** The executors run one after the other, each to its call of [exec]. *)
Lemma runs_mapM_startExec paths w :
  Forall (fun p => JS.hasNul (command E config p) = false) paths ->
  exists w',
    fs w' = fs w /\
    runs (mapM (fun path => newPromise (startExec E config path)) paths) w
         (flat_map (startEvents E config) paths) w'
         (Returned (map (fun p => inr (p, command E config p)) paths)).
Proof.
  revert w. induction paths as [|p paths IH]; intros w Hnul.
  - exists w. split; [reflexivity | apply runs_ret].
  - apply Forall_cons in Hnul as [Hp Hnul].
    destruct (IH {| fs := fs w;
                    trace := trace w ++ startEvents E config p |} Hnul)
      as (w' & Hfs & Hrest).
    exists w'. split; [exact Hfs|]. cbn [mapM flat_map map].
    eapply runs_bind; [now apply runs_startExec|].
    eapply runs_bind_quiet_r; [exact Hrest | apply runs_ret].
Qed.

Lemma runs_mapM_startExec_refused paths w :
  Forall (fun p => JS.hasNul (command E config p) = true) paths ->
  exists w',
    fs w' = fs w /\
    runs (mapM (fun path => newPromise (startExec E config path)) paths) w
         (flat_map (startEvents E config) paths) w'
         (Returned (map (fun _ => inl "ERR_INVALID_ARG_VALUE") paths)).
Proof.
  revert w. induction paths as [|p paths IH]; intros w Hnul.
  - exists w. split; [reflexivity | apply runs_ret].
  - apply Forall_cons in Hnul as [Hp Hnul].
    destruct (IH {| fs := fs w;
                    trace := trace w ++ startEvents E config p |} Hnul)
      as (w' & Hfs & Hrest).
    exists w'. split; [exact Hfs|]. cbn [mapM flat_map map].
    eapply runs_bind; [now apply runs_startExec_refused|].
    eapply runs_bind_quiet_r; [exact Hrest | apply runs_ret].
Qed.

Lemma firstRejection_pending {A} (l : list A) :
  firstRejection (map inr l) = None /\ pendingPromises (map inr l) = l.
Proof.
  induction l as [|a l [IH1 IH2]]; [easy|].
  split; [exact IH1|]. unfold pendingPromises in *. cbn. now rewrite IH2.
Qed.

Lemma runs_execCallback path w :
  exists w',
    runs (execCallback E path (command E config path)) w
         (exitEvents E config
            (path, (exec_exit E w (command E config path)).2))
         w' (Returned tt).
Proof.
  unfold execCallback, exitEvents. cbn [fst snd].
  destruct (exec_exit E w (command E config path)) as [m err] eqn:Hexit.
  cbn [snd].
  set (w1 := {| fs := m;
                trace := trace w ++ [ExecExit (command E config path) err] |}).
  assert (H1 : runs
    (fun w0 => let '(m0, err0) := exec_exit E w0 (command E config path) in
               ({| fs := m0;
                   trace := trace w0
                            ++ [ExecExit (command E config path) err0] |},
                Returned err0))
    w [ExecExit (command E config path) err] w1 (Returned err)).
  { split; [|reflexivity]. now rewrite Hexit. }
  destruct err as [message|].
  - eexists. change (?x :: ?l) with ([x] ++ l).
    eapply runs_bind; [exact H1 | apply runs_log].
  - exists w1. eapply runs_bind_quiet_r; [exact H1 | apply runs_ret].
Qed.

(** Every pending promise is resolved, whatever the order in which the
    commands end and whatever their errors: [exits] lists the paths in the
    order of the exits. *)
Lemma runs_awaitAll n pending w :
  length pending = n ->
  Forall (fun pc => pc.2 = command E config pc.1) pending ->
  exists exits w',
    map fst exits ≡ₚ map fst pending /\
    runs (awaitAll E n pending) w
         (flat_map (exitEvents E config) exits) w' (Returned tt).
Proof.
  revert pending w. induction n as [|n IH]; intros pending w Hlen Hcmd.
  - destruct pending; [|discriminate].
    exists [], w. split; [reflexivity | apply runs_ret].
  - set (i := (next_exit E w (map snd pending) mod length pending)%nat).
    assert (Hi : (i < length pending)%nat).
    { apply Nat.mod_upper_bound. lia. }
    destruct (lookup_lt_is_Some_2 pending i Hi) as [[path cmd] Hlook].
    assert (Hc : cmd = command E config path).
    { apply (Forall_lookup_1 _ _ _ _ Hcmd Hlook). }
    subst cmd.
    destruct (runs_execCallback path w) as [w1 Hcb].
    destruct (IH (delete i pending) w1) as (exits & w' & Hperm & Hrest).
    { rewrite length_delete by eauto. lia. }
    { now apply Forall_delete. }
    exists ((path, (exec_exit E w (command E config path)).2) :: exits), w'.
    split.
    + cbn [map fst]. rewrite Hperm.
      rewrite (delete_Permutation pending i _ Hlook) at 2. reflexivity.
    + cbn [flat_map].
      pose proof (runs_bind _ (fun _ => awaitAll E n (delete i pending))
                    _ _ _ _ _ _ _ Hcb Hrest) as [Hrun Htrace].
      split; [|exact Htrace].
      cbn [awaitAll]. fold i. rewrite Hlook. exact Hrun.
Qed.

Lemma pathsToDump_tail :
  exists front,
    pathsToDump config
    = front ++ ["scripts/items/items_game.txt"; "resource/csgo_english.txt"].
Proof. eexists. reflexivity. Qed.

(** [dumpFiles] starts one command per requested path, waits for all of
    them and fulfils. *)
Lemma runs_dumpFiles w :
  commandsHaveNul config = false ->
  exists exits w',
    map fst exits ≡ₚ pathsToDump config /\
    runs (dumpFiles E config) w (dumpTrace E config exits) w' (Returned tt).
Proof.
  intros Hnul.
  set (w1 := {| fs := fs w;
                trace := trace w
                  ++ [Log info ("Extracting "
                                +:+ pretty (length (pathsToDump config))
                                +:+ " directories/files...") None] |}).
  destruct (runs_mapM_startExec (pathsToDump config) w1)
    as (w2 & _ & Hstart).
  { apply Forall_forall. intros p Hin%list_elem_of_In.
    now rewrite hasNul_requested. }
  destruct (runs_awaitAll
              (length (map (fun p => (p, command E config p))
                           (pathsToDump config)))
              (map (fun p => (p, command E config p)) (pathsToDump config))
              w2 eq_refl) as (exits & w' & Hperm & Hwait).
  { apply Forall_forall. intros [p c] Hin.
    apply list_elem_of_In, in_map_iff in Hin as (p' & [= <- <-] & _).
    reflexivity. }
  exists exits, w'. split.
  - rewrite Hperm, map_map. cbn [fst]. now rewrite map_id.
  - unfold dumpFiles, dumpTrace. apply runs_try_returned.
    change (?x :: ?l) with ([x] ++ l).
    eapply runs_bind; [apply runs_log|].
    eapply runs_bind; [exact Hstart|].
    unfold awaitPromises.
    rewrite <- (map_map (fun p => (p, command E config p)) inr).
    destruct (firstRejection_pending
                (map (fun p => (p, command E config p)) (pathsToDump config)))
      as [-> ->].
    exact Hwait.
Qed.

(** When [exec] refuses the commands, the await throws, [dumpFiles] logs
    the error and fulfils; no command has run. *)
Lemma runs_dumpFiles_refused w :
  commandsHaveNul config = true ->
  exists w',
    fs w' = fs w /\
    runs (dumpFiles E config) w (refusedDumpTrace E config) w' (Returned tt).
Proof.
  intros Hnul.
  set (w1 := {| fs := fs w;
                trace := trace w
                  ++ [Log info ("Extracting "
                                +:+ pretty (length (pathsToDump config))
                                +:+ " directories/files...") None] |}).
  destruct (runs_mapM_startExec_refused (pathsToDump config) w1)
    as (w2 & Hfs & Hstart).
  { apply Forall_forall. intros p Hin%list_elem_of_In.
    now rewrite hasNul_requested. }
  eexists. split; [|unfold dumpFiles, refusedDumpTrace].
  2: { change (?x :: ?l ++ ?l') with (([x] ++ l) ++ l').
       eapply runs_try_thrown; [|apply runs_log].
       eapply runs_bind; [apply runs_log|].
       eapply runs_bind_quiet_r; [exact Hstart|].
       destruct pathsToDump_tail as [front ->].
       unfold awaitPromises. rewrite map_app.
       assert (Hfirst : forall (l l' : list string),
                 l' <> [] ->
                 firstRejection
                   (map (fun _ => inl "ERR_INVALID_ARG_VALUE") l
                    ++ map (fun _ => inl "ERR_INVALID_ARG_VALUE") l'
                    : list (string + string * string))
                 = Some "ERR_INVALID_ARG_VALUE").
       { intros l l' Hl'. destruct l; [|reflexivity].
         destruct l'; [congruence | reflexivity]. }
       rewrite Hfirst by discriminate. apply runs_throw. }
  exact Hfs.
Qed.

End DumpFacts.

(** ** The rename pass *)

Section RenameFacts.

Variable E : Env.
Variable config : Config.

(** A call of [rename] adds one event and returns or throws. *)
Lemma runs_rename oldPath newPath w :
  exists w' r, runs (rename E oldPath newPath) w [Rename oldPath newPath] w' r.
Proof.
  unfold rename, runs.
  destruct (rename_fault E w oldPath newPath); [eauto|].
  destruct (JS.hasNul oldPath || JS.hasNul newPath); [eauto|].
  destruct (lookupPath w oldPath) as [[content|]|]; [|eauto..].
  destruct (lookupPath w newPath) as [[c'|]|]; eauto.
Qed.

(** One turn of the loop never throws, and its trace has the shape
    [fileTrace]. *)
Lemma runs_renameFile file count w :
  exists t w' count',
    fileTrace file t /\
    runs (renameFile E file count) w t w' (Returned count').
Proof.
  unfold renameFile, fileTrace, isRenamed.
  destruct (isFile file && JS.endsWith (name file) "_png.png").
  - destruct (runs_rename (oldPathOf file) (newPathOf file) w)
      as (w1 & [[]|e] & Hrename).
    + (* the call returned *)
      destruct ((S count mod 100 =? 0)%nat) eqn:Hprogress.
      * eexists _, _, (S count). split.
        { eexists. split; [reflexivity|]. right; left. eauto. }
        apply runs_try_returned.
        change (?x :: ?l) with ([x] ++ l).
        eapply runs_bind; [exact Hrename|].
        eapply runs_bind_quiet_r; [apply runs_log | apply runs_ret].
      * exists [Rename (oldPathOf file) (newPathOf file)], w1, (S count).
        split.
        { eexists. split; [reflexivity|]. now left. }
        apply runs_try_returned.
        eapply runs_bind_quiet_r; [exact Hrename|].
        eapply runs_bind_quiet_r; apply runs_ret.
    + (* the call threw: the warning, and the count stays *)
      eexists _, _, count. split.
      { eexists. split; [reflexivity|]. right; right. eauto. }
      change (?x :: ?l) with ([x] ++ l).
      eapply runs_try_thrown.
      * apply runs_bind_thrown. exact Hrename.
      * eapply runs_bind_quiet_r; [apply runs_log | apply runs_ret].
  - exists [], w, count. split; [reflexivity | apply runs_ret].
Qed.

(** The loop walks the whole listing. *)
Lemma runs_renameLoop files count w :
  exists ts w' count',
    Forall2 (fileTrace) files ts /\
    runs (renameLoop E files count) w (concat ts) w' (Returned count').
Proof.
  revert count w. induction files as [|file files IH]; intros count w.
  - exists [], w, count. split; [constructor | apply runs_ret].
  - destruct (runs_renameFile file count w) as (t & w1 & c1 & Hshape & Hrun).
    destruct (IH c1 w1) as (ts & w' & c' & Hshapes & Hruns).
    exists (t :: ts), w', c'. split; [now constructor|].
    cbn [renameLoop concat]. eapply runs_bind; eassumption.
Qed.

Lemma runs_readdir dir w :
  let w1 := {| fs := fs w; trace := trace w ++ [Readdir dir] |} in
  (exists e, runs (readdir E dir) w [Readdir dir] w1 (Thrown e)) \/
  runs (readdir E dir) w [Readdir dir] w1 (Returned (listing (fs w) dir)).
Proof.
  unfold readdir, runs. cbn zeta.
  destruct (readdir_fault E w dir); [left; eauto|].
  destruct (lookupPath w dir) as [[c|]|]; eauto.
Qed.

(** [renameFiles] fulfils, with a trace of the shape [renamePassTrace]. *)
Lemma runs_renameFiles w :
  exists t w',
    renamePassTrace config (listing (fs w) (directory config)) t /\
    runs (renameFiles E config) w t w' (Returned tt).
Proof.
  unfold renameFiles, renamePassTrace.
  set (w1 := {| fs := fs w;
                trace := trace w
                  ++ [Log info "Renaming _png.png files to .png..." None] |}).
  destruct (runs_readdir (directory config) w1) as [[e Hdir] | Hdir].
  - eexists _, _. split.
    { eexists. split; [reflexivity|]. left. eauto. }
    change (?x :: ?y :: ?l) with (([x] ++ [y]) ++ l).
    eapply runs_try_thrown.
    + eapply runs_bind; [apply runs_log|].
      apply runs_bind_thrown. exact Hdir.
    + apply runs_log.
  - destruct (runs_renameLoop (listing (fs w) (directory config)) 0%nat
                {| fs := fs w1; trace := trace w1 ++ [Readdir (directory config)] |})
      as (ts & w2 & n & Hshapes & Hloop).
    eexists _, _. split.
    { eexists. split; [reflexivity|]. right. exists ts, n. eauto. }
    apply runs_try_returned.
    change (?x :: ?y :: ?l) with ([x] ++ [y] ++ l).
    eapply runs_bind; [apply runs_log|].
    eapply runs_bind; [exact Hdir|].
    eapply runs_bind; [exact Hloop | apply runs_log].
Qed.

End RenameFacts.

(** ** The whole run *)

Section ExtractFacts.

Variable E : Env.
Variable config : Config.

Lemma found_some w w' path :
  fs w' = fs w ->
  is_Some (lookupPath w path) ->
  bool_decide (is_Some (lookupPath w' path)) = true.
Proof.
  intros Hfs H. apply bool_decide_eq_true_2.
  unfold lookupPath in *. now rewrite Hfs.
Qed.

Lemma found_none w w' path :
  fs w' = fs w ->
  lookupPath w path = None ->
  bool_decide (is_Some (lookupPath w' path)) = false.
Proof.
  intros Hfs H. apply bool_decide_eq_false_2.
  unfold lookupPath in *. rewrite Hfs, H. apply is_Some_None.
Qed.

(** A path that is found holds no character of code 0; so the commands of
    a run that has found the archive and the tool hold none. *)
Lemma lookupPath_nulFree w path :
  is_Some (lookupPath w path) -> JS.hasNul path = false.
Proof.
  unfold lookupPath. destruct (JS.hasNul path); [|reflexivity].
  intros H. now apply is_Some_None in H.
Qed.

Lemma prerequisites_nulFree w :
  is_Some (lookupPath w (vpkPath config)) ->
  is_Some (lookupPath w (executable E config)) ->
  commandsHaveNul config = false.
Proof.
  intros Hvpk%lookupPath_nulFree Htool%lookupPath_nulFree.
  unfold vpkPath, executable, commandsHaveNul in *.
  destruct (isWin32 E); rewrite !hasNul_app in Hvpk;
    rewrite !hasNul_app in Htool;
    destruct (JS.hasNul (directory config)),
             (JS.hasNul (source2Viewer config));
    first [reflexivity | discriminate Hvpk | discriminate Htool].
Qed.

Lemma runs_loadVPK w :
  (exists e w',
      runs (loadVPK E config) w [VpkLoad (vpkPath config)] w' (Thrown e) /\
      vpk_load E w' (vpkPath config) = Thrown e) \/
  (exists (n : nat) w',
      runs (loadVPK E config) w
           [VpkLoad (vpkPath config);
            Log info ("Loaded VPK with " +:+ pretty n +:+ " files") None]
           w' (Returned tt)).
Proof.
  unfold loadVPK.
  set (w1 := {| fs := fs w; trace := trace w ++ [VpkLoad (vpkPath config)] |}).
  destruct (vpk_load E w1 (vpkPath config)) as [n|e] eqn:Hload.
  - right. exists n. eexists.
    change (?x :: ?l) with ([x] ++ l).
    eapply runs_bind; [apply runs_emit|].
    eapply runs_bind_quiet_l; [|apply runs_log].
    split; [|now rewrite app_nil_r]. fold w1. now rewrite Hload.
  - left. exists e, w1. split; [|exact Hload].
    eapply runs_bind_quiet_r; [apply runs_emit|].
    apply runs_bind_thrown.
    split; [|now rewrite app_nil_r]. fold w1. now rewrite Hload.
Qed.

(** [extractPNGs] fulfils, and its trace has one of the four shapes of
    [runTrace]. *)
Lemma runs_extractPNGs w :
  exists t w',
    runTrace E config w t /\
    runs (extractPNGs E config) w t w' (Returned tt).
Proof.
  unfold extractPNGs.
  destruct (lookupPath w (vpkPath config)) as [node|] eqn:Hvpk.
  2: { eexists _, _. split; [now apply run_no_archive|].
       apply runs_try_returned.
       change (?x :: ?l) with ([x] ++ l).
       eapply runs_bind; [apply runs_existsSync|].
       rewrite (found_none w) by easy. apply runs_log. }
  assert (Hvpk' : is_Some (lookupPath w (vpkPath config)))
    by (rewrite Hvpk; eauto).
  destruct (lookupPath w (executable E config)) as [node'|] eqn:Htool.
  2: { eexists _, _. split; [now apply run_no_tool|].
       apply runs_try_returned.
       change (?x :: ?l) with ([x] ++ l).
       eapply runs_bind; [apply runs_existsSync|].
       rewrite (found_some w) by easy.
       change (?x :: ?l) with ([x] ++ l).
       eapply runs_bind; [apply runs_existsSync|].
       rewrite (found_none w) by easy.
       change (?x :: ?l) with ([x] ++ l).
       eapply runs_bind; apply runs_log. }
  assert (Htool' : is_Some (lookupPath w (executable E config)))
    by (rewrite Htool; eauto).
  pose (w2 := {| fs := fs w;
                 trace := ((trace w ++ [ExistsSync (vpkPath config)])
                           ++ [ExistsSync (executable E config)])
                          ++ [Log info "Loading VPK files..." None] |}).
  assert (Hhead : forall (k : M unit) t w' r,
    runs k w2 t w' r ->
    runs (found <- existsSync (vpkPath config);;
          if negb found then
            log error ("VPK file not found at: " +:+ vpkPath config) None
          else
            found' <- existsSync (executable E config);;
            if negb found' then
              log error ("Source2Viewer not found at: "
                         +:+ executable E config) None;;
              log info
                "Please ensure Source2Viewer-CLI.exe is in the data directory"
                None
            else log info "Loading VPK files..." None;; k)
         w ([ExistsSync (vpkPath config); ExistsSync (executable E config);
             Log info "Loading VPK files..." None] ++ t) w' r).
  { intros k t w' r Hk.
    change ([?x; ?y; ?z] ++ ?l) with ([x] ++ [y] ++ [z] ++ l).
    eapply runs_bind; [apply runs_existsSync|].
    rewrite (found_some w) by easy.
    eapply runs_bind; [apply runs_existsSync|].
    rewrite (found_some w) by easy.
    eapply runs_bind; [apply runs_log | exact Hk]. }
  destruct (runs_loadVPK w2) as [(e & w3 & Hload & He) | (n & w3 & Hload)].
  - (* [load()] threw: the outer handler logs it *)
    eexists _, _. split; [apply (run_load_failed E config w e); eauto|].
    change [?a; ?b; ?c; ?d; ?x] with (([a; b; c] ++ [d]) ++ [x]).
    eapply runs_try_thrown; [|apply runs_log].
    apply Hhead. apply runs_bind_thrown. exact Hload.
  - destruct (runs_dumpFiles E config
                {| fs := fs w3;
                   trace := trace w3
                     ++ [Log info "Starting PNG extraction..." None] |}
                (prerequisites_nulFree w Hvpk' Htool'))
      as (exits & w4 & Hperm & Hdump).
    destruct (runs_renameFiles E config w4) as (renamed & w5 & Hshape & Hren).
    eexists _, _. split.
    { now apply (run_complete E config w n exits
                   (listing (fs w4) (directory config)) renamed). }
    apply runs_try_returned.
    change ([?a; ?b; ?c; ?d; ?x; ?y] ++ ?l)
      with ([a; b; c] ++ [d; x] ++ [y] ++ l).
    apply Hhead.
    eapply runs_bind; [exact Hload|].
    eapply runs_bind; [apply runs_log|].
    eapply runs_bind; [exact Hdump|].
    eapply runs_bind; [exact Hren | apply runs_log].
Qed.

End ExtractFacts.

(** ** The requested paths *)

Lemma execStarts_app t1 t2 : execStarts (t1 ++ t2) = execStarts t1 ++ execStarts t2.
Proof. apply omap_app. Qed.

Lemma execExits_app t1 t2 : execExits (t1 ++ t2) = execExits t1 ++ execExits t2.
Proof. apply omap_app. Qed.

Section DumpTraceFacts.

Variable E : Env.
Variable config : Config.

Lemma execStarts_startEvents paths :
  execStarts (flat_map (startEvents E config) paths)
  = map (command E config) paths.
Proof.
  induction paths as [|p paths IH]; [reflexivity|].
  cbn [flat_map map]. rewrite execStarts_app, IH. reflexivity.
Qed.

Lemma execExits_startEvents paths :
  execExits (flat_map (startEvents E config) paths) = [].
Proof.
  induction paths as [|p paths IH]; [reflexivity|].
  cbn [flat_map]. rewrite execExits_app, IH. reflexivity.
Qed.

Lemma execStarts_exitEvents exits :
  execStarts (flat_map (exitEvents E config) exits) = [].
Proof.
  induction exits as [|[p [msg|]] exits IH]; [reflexivity|..];
    cbn [flat_map]; rewrite execStarts_app, IH; reflexivity.
Qed.

Lemma execExits_exitEvents exits :
  execExits (flat_map (exitEvents E config) exits)
  = map (command E config) (map fst exits).
Proof.
  induction exits as [|[p [msg|]] exits IH]; [reflexivity|..];
    cbn [flat_map map fst]; rewrite execExits_app, IH; reflexivity.
Qed.

Lemma execStarts_dumpTrace exits :
  execStarts (dumpTrace E config exits)
  = map (command E config) (pathsToDump config).
Proof.
  unfold dumpTrace. change (?x :: ?l) with ([x] ++ l).
  rewrite !execStarts_app, execStarts_startEvents, execStarts_exitEvents.
  cbn. apply app_nil_r.
Qed.

Lemma execStarts_refusedDumpTrace :
  execStarts (refusedDumpTrace E config)
  = map (command E config) (pathsToDump config).
Proof.
  unfold refusedDumpTrace. change (?x :: ?l) with ([x] ++ l).
  rewrite !execStarts_app, execStarts_startEvents.
  cbn. apply app_nil_r.
Qed.


(** [dumpFiles] fulfils, with one of its two traces. *)
Lemma dumpFiles_cases w :
  exists t w',
    runs (dumpFiles E config) w t w' (Returned tt) /\
    ((commandsHaveNul config = false /\
      exists exits,
        map fst exits ≡ₚ pathsToDump config /\
        t = dumpTrace E config exits)
     \/ (commandsHaveNul config = true /\ fs w' = fs w /\
         t = refusedDumpTrace E config)).
Proof.
  destruct (commandsHaveNul config) eqn:Hnul.
  - destruct (runs_dumpFiles_refused E config w Hnul) as (w' & Hfs & Hrun).
    exists (refusedDumpTrace E config), w'. split; [exact Hrun|].
    right. auto.
  - destruct (runs_dumpFiles E config w Hnul) as (exits & w' & Hperm & Hrun).
    exists (dumpTrace E config exits), w'. split; [exact Hrun|].
    left. eauto.
Qed.

Lemma execExits_dumpTrace exits :
  execExits (dumpTrace E config exits)
  = map (command E config) (map fst exits).
Proof.
  unfold dumpTrace. change (?x :: ?l) with ([x] ++ l).
  rewrite !execExits_app, execExits_startEvents, execExits_exitEvents.
  reflexivity.
Qed.

Lemma dumpTrace_no_rename exits :
  Forall (fun e => isRenamePassEvent e = false) (dumpTrace E config exits).
Proof.
  unfold dumpTrace. constructor; [reflexivity|].
  apply Forall_app. split.
  - induction (pathsToDump config) as [|p paths IH]; [constructor|].
    cbn [flat_map startEvents app]. now repeat constructor.
  - induction exits as [|[p [msg|]] exits IH]; [constructor|..];
      cbn [flat_map exitEvents app fst snd]; now repeat constructor.
Qed.

(** The command of a path is the same text for every path but for the path
    itself, which is the argument of [--vpk_filepath]. *)
Lemma command_shape :
  exists before after,
    forall path,
      command E config path
      = before +:+ " --vpk_filepath " +:+ JS.DQUOTE +:+ path +:+ JS.DQUOTE
        +:+ after.
Proof.
  exists ((if isWin32 E then
             JS.DQUOTE +:+ directory config +:+ JS.BACKSLASH
               +:+ source2Viewer config +:+ ".exe" +:+ JS.DQUOTE
           else directory config +:+ "/" +:+ source2Viewer config)
          +:+ " --input " +:+ JS.DQUOTE +:+ directory config
          +:+ JS.BACKSLASH +:+ "game" +:+ JS.BACKSLASH +:+ "csgo"
          +:+ JS.BACKSLASH +:+ "pak01_dir.vpk" +:+ JS.DQUOTE),
         (" -o " +:+ JS.DQUOTE +:+ directory config +:+ JS.DQUOTE
          +:+ " -d "
          +:+ (if isWin32 E then "> nul 2>&1" else "> /dev/null 2>&1")).
  intros path. unfold command. cbv zeta.
  rewrite !append_assoc. reflexivity.
Qed.

End DumpTraceFacts.

(** C8: whatever the flags of the configuration, all false included, the
    paths requested by [dumpFiles] end with the two fixed metadata files
    [scripts/items/items_game.txt] and [resource/csgo_english.txt]. *)
Theorem metadata_files_always_requested (config : Config) :
  In "scripts/items/items_game.txt" (pathsToDump config) /\
  In "resource/csgo_english.txt" (pathsToDump config) /\
  exists directories,
    pathsToDump config
    = directories
      ++ ["scripts/items/items_game.txt"; "resource/csgo_english.txt"].
Proof.
  unfold pathsToDump. repeat split.
  - apply in_or_app. right. cbn. auto.
  - apply in_or_app. right. cbn. auto.
  - eexists. reflexivity.
Qed.

(** C7: [dumpFiles] starts exactly one external command per requested path:
    the commands handed to [exec] are, in order, the commands of the
    requested paths, so there are as many as requested paths, each with its
    path as the argument of [--vpk_filepath]; the archive plays no part. *)
Theorem one_invocation_per_requested_path (E : Env) (config : Config) (w : World) :
  exists t w',
    runs (dumpFiles E config) w t w' (Returned tt) /\
    execStarts t = map (command E config) (pathsToDump config) /\
    length (execStarts t) = length (pathsToDump config) /\
    exists before after,
      forall path,
        command E config path
        = before +:+ " --vpk_filepath " +:+ JS.DQUOTE +:+ path +:+ JS.DQUOTE
          +:+ after.
Proof.
  destruct (dumpFiles_cases E config w)
    as (t & w' & Hrun & [(_ & exits & _ & ->) | (_ & _ & ->)]);
    eexists _, w'; (split; [exact Hrun|]).
  - rewrite execStarts_dumpTrace, length_map.
    repeat split. apply command_shape.
  - rewrite execStarts_refusedDumpTrace, length_map.
    repeat split. apply command_shape.
Qed.

(** ** Missing prerequisites *)

(** C6: when the archive directory file or the executable of the external
    tool does not exist, [extractPNGs] logs an error and returns at once: the
    file system is unchanged and the run consists of existence checks and log
    lines only, so the archive is not loaded, no command is started, and the
    data directory is neither listed nor renamed in. *)
Theorem missing_prerequisite_aborts (E : Env) (config : Config) (w : World) :
  lookupPath w (vpkPath config) = None \/
  lookupPath w (executable E config) = None ->
  exists t diagnostic,
    extractPNGs E config w
    = ({| fs := fs w; trace := trace w ++ t |}, Returned tt) /\
    In (Log error diagnostic None) t /\
    Forall (fun e => isCheckOrLog e = true) t.
Proof.
  intros Hmissing.
  destruct (lookupPath w (vpkPath config)) as [node|] eqn:Hvpk.
  - destruct Hmissing as [|Htool]; [discriminate|].
    exists [ExistsSync (vpkPath config);
            ExistsSync (executable E config);
            Log error ("Source2Viewer not found at: " +:+ executable E config)
                None;
            Log info
              "Please ensure Source2Viewer-CLI.exe is in the data directory"
              None].
    eexists. split; [|split; [right; right; left; reflexivity
                             | repeat constructor]].
    assert (Hrun : runs (extractPNGs E config) w
      ([ExistsSync (vpkPath config)] ++ [ExistsSync (executable E config)]
       ++ [Log error ("Source2Viewer not found at: " +:+ executable E config)
               None]
       ++ [Log info
             "Please ensure Source2Viewer-CLI.exe is in the data directory"
             None])
      {| fs := fs w;
         trace := (((trace w ++ [ExistsSync (vpkPath config)])
                    ++ [ExistsSync (executable E config)])
                   ++ [Log error ("Source2Viewer not found at: "
                                  +:+ executable E config) None])
                  ++ [Log info
                        "Please ensure Source2Viewer-CLI.exe is in the data directory"
                        None] |}
      (Returned tt)).
    { apply runs_try_returned.
      eapply runs_bind; [apply runs_existsSync|].
      rewrite (found_some w) by (rewrite ?Hvpk; eauto).
      eapply runs_bind; [apply runs_existsSync|].
      rewrite (found_none w) by easy.
      eapply runs_bind; apply runs_log. }
    destruct Hrun as [-> _]. do 2 f_equal. now rewrite <- !app_assoc.
  - exists [ExistsSync (vpkPath config);
            Log error ("VPK file not found at: " +:+ vpkPath config) None].
    eexists. split; [|split; [right; left; reflexivity | repeat constructor]].
    assert (Hrun : runs (extractPNGs E config) w
      ([ExistsSync (vpkPath config)]
       ++ [Log error ("VPK file not found at: " +:+ vpkPath config) None])
      {| fs := fs w;
         trace := (trace w ++ [ExistsSync (vpkPath config)])
                  ++ [Log error ("VPK file not found at: " +:+ vpkPath config)
                          None] |}
      (Returned tt)).
    { apply runs_try_returned.
      eapply runs_bind; [apply runs_existsSync|].
      rewrite (found_none w) by easy. apply runs_log. }
    destruct Hrun as [-> _]. do 2 f_equal. now rewrite <- !app_assoc.
Qed.

(** The run in an empty file system. *)
Lemma missing_prerequisite_aborts_witness :
  (lookupPath emptyWorld (vpkPath mainConfig) = None \/
   lookupPath emptyWorld (executable calmEnv mainConfig) = None) /\
  exists t diagnostic,
    extractPNGs calmEnv mainConfig emptyWorld
    = ({| fs := fs emptyWorld; trace := trace emptyWorld ++ t |}, Returned tt) /\
    In (Log error diagnostic None) t /\
    Forall (fun e => isCheckOrLog e = true) t.
Proof.
  split; [left; reflexivity|].
  apply (missing_prerequisite_aborts calmEnv mainConfig emptyWorld).
  left; reflexivity.
Defined.

(** ** The archive signature *)

(** C2: when the first uint32 of the buffer, read little-endian, is not
    [0x55AA1234], [parse] fails with [InvalidSignature], having read the four
    bytes of the magic number and nothing else. *)
Theorem wrong_magic_is_invalid_signature (buffer : list Byte.byte) (magic : Z) :
  VPK.readUInt32LE buffer 0%nat = (4%nat, inr magic) ->
  magic <> VPK.SIGNATURE ->
  VPK.parse buffer = (4%nat, inl VPK.InvalidSignature).
Proof.
  intros Hread Hmagic.
  unfold VPK.parse, VPK.parseHeader, VPK.andThen. rewrite Hread.
  destruct (Z.eqb_spec magic VPK.SIGNATURE) as [Heq|_]; [contradiction|].
  reflexivity.
Qed.

(** The sample archive with its first byte changed. *)
Lemma wrong_magic_is_invalid_signature_witness :
  VPK.readUInt32LE damagedArchive 0%nat = (4%nat, inr 0x55AA1235) /\
  0x55AA1235 <> VPK.SIGNATURE /\
  VPK.parse damagedArchive = (4%nat, inl VPK.InvalidSignature).
Proof.
  split; [reflexivity|]. split; [discriminate|].
  apply (wrong_magic_is_invalid_signature damagedArchive 0x55AA1235);
    [reflexivity | discriminate].
Defined.

(** A buffer too short to hold a magic number has no first uint32; the parse
    fails with [OutOfBounds] before anything is read. *)
Lemma short_buffer_is_out_of_bounds (buffer : list Byte.byte) :
  (length buffer < 4)%nat ->
  VPK.parse buffer = (0%nat, inl VPK.OutOfBounds).
Proof.
  intros Hshort.
  unfold VPK.parse, VPK.parseHeader, VPK.andThen, VPK.readUInt32LE.
  destruct (Nat.leb_spec (0 + 4) (length buffer)); [lia | reflexivity].
Qed.

(** In a run, the error of the parser reaches the handler of [extractPNGs]:
    it is logged, and neither a command nor a rename follows. *)
Example damaged_archive_run :
  let w := {| fs := <["data/game/csgo/pak01_dir.vpk" := File damagedArchive]>
                      (fs sampleWorld);
              trace := [] |} in
  extractPNGs calmEnv mainConfig w
  = ({| fs := fs w;
        trace := [ExistsSync "data/game/csgo/pak01_dir.vpk";
                  ExistsSync "data/Source2Viewer-CLI";
                  Log info "Loading VPK files..." None;
                  VpkLoad "data/game/csgo/pak01_dir.vpk";
                  Log error "Error during extraction:"
                      (Some "InvalidSignature")] |},
     Returned tt).
Proof. vm_compute. reflexivity. Qed.

(** ** Order and completeness of the run *)

Lemma runs_outcome {A} (m : M A) w t w' r : runs m w t w' r -> (m w).2 = r.
Proof. intros [-> _]. reflexivity. Qed.

Lemma runs_trace {A} (m : M A) w t w' r :
  runs m w t w' r -> trace (m w).1 = trace w ++ t.
Proof. intros [-> Ht]. exact Ht. Qed.

Lemma renameCalls_app t1 t2 :
  renameCalls (t1 ++ t2) = renameCalls t1 ++ renameCalls t2.
Proof. apply omap_app. Qed.

Section ShapeFacts.

Variable E : Env.
Variable config : Config.

Lemma fileTrace_no_exec file t :
  fileTrace file t -> Forall (fun e => isExecEvent e = false) t.
Proof.
  unfold fileTrace. destruct (isRenamed file).
  - intros (tail & -> & [-> | [[n ->] | [e ->]]]); now repeat constructor.
  - intros ->. constructor.
Qed.

Lemma fileTraces_no_exec files ts :
  Forall2 fileTrace files ts ->
  Forall (fun e => isExecEvent e = false) (concat ts).
Proof.
  induction 1 as [|file t files ts Hshape _ IH]; [constructor|].
  cbn [concat]. apply Forall_app. split; [|exact IH].
  now apply (fileTrace_no_exec file).
Qed.

Lemma renamePassTrace_no_exec files t :
  renamePassTrace config files t ->
  Forall (fun e => isExecEvent e = false) t.
Proof.
  intros (rest & -> & [[e ->] | (ts & n & Hshapes & ->)]).
  - now repeat constructor.
  - do 2 (constructor; [reflexivity|]).
    apply Forall_app. split; [|now repeat constructor].
    now apply (fileTraces_no_exec files).
Qed.


Lemma dumpTrace_starts_and_exits exits path :
  map fst exits ≡ₚ pathsToDump config ->
  In path (pathsToDump config) ->
  In (ExecStart (command E config path)) (dumpTrace E config exits) /\
  exists err, In (ExecExit (command E config path) err)
                 (dumpTrace E config exits).
Proof.
  intros Hperm Hin. unfold dumpTrace. split.
  - right. apply in_or_app. left. apply in_flat_map.
    exists path. split; [exact Hin | right; left; reflexivity].
  - assert (Hin' : In path (map fst exits)).
    { apply list_elem_of_In. rewrite Hperm. now apply list_elem_of_In. }
    apply in_map_iff in Hin' as ([p err] & <- & Hexit).
    exists err. right. apply in_or_app. right. apply in_flat_map.
    exists (p, err). split; [exact Hexit | left; reflexivity].
Qed.

Lemma dumpTrace_warns exits path message :
  In (path, Some message) exits ->
  In (Log warn ("Warning extracting " +:+ path +:+ ":") (Some message))
     (dumpTrace E config exits).
Proof.
  intros Hin. unfold dumpTrace. right. apply in_or_app. right.
  apply in_flat_map. exists (path, Some message).
  split; [exact Hin | right; left; reflexivity].
Qed.

(** Every run splits in two: what comes first holds no event of the rename
    pass, what follows holds no start and no exit of a command, and at the
    cut every command started has ended. *)
Lemma runTrace_split w t :
  runTrace E config w t ->
  exists before after,
    t = before ++ after /\
    Forall (fun e => isRenamePassEvent e = false) before /\
    Forall (fun e => isExecEvent e = false) after /\
    execExits before ≡ₚ execStarts before /\
    (after <> [] ->
     execStarts before = map (command E config) (pathsToDump config)).
Proof.
  intros [Hvpk | Hvpk Htool | e Hvpk Htool Hload
          | n exits files renamed Hvpk Htool Hperm Hshape].
  1-3: eexists _, []; rewrite app_nil_r;
       (split; [reflexivity|]);
       (split; [now repeat constructor|]);
       (split; [constructor|]);
       (split; [reflexivity | congruence]).
  exists ([ExistsSync (vpkPath config);
           ExistsSync (executable E config);
           Log info "Loading VPK files..." None;
           VpkLoad (vpkPath config);
           Log info ("Loaded VPK with " +:+ pretty n +:+ " files") None;
           Log info "Starting PNG extraction..." None]
          ++ dumpTrace E config exits),
         (renamed
          ++ [Log info "PNG extraction completed successfully!" None]).
  split; [now rewrite <- app_assoc|].
  split.
  { apply Forall_app. split; [now repeat constructor|].
    apply dumpTrace_no_rename. }
  split.
  { apply Forall_app. split; [|now repeat constructor].
    now apply (renamePassTrace_no_exec files). }
  rewrite execStarts_app, execExits_app.
  rewrite execStarts_dumpTrace, execExits_dumpTrace.
  split; [|reflexivity].
  cbn [execStarts execExits omap app]. now rewrite Hperm.
Qed.

End ShapeFacts.

(** C3: in every run of [extractPNGs] the rename pass comes strictly after
    the fan-in: the trace splits into a first part without any event of the
    rename pass (no listing, no rename) and a second part without any start
    or exit of a command; at the cut every command that was started has
    ended, and if anything follows the cut, a command had been started for
    every requested path. *)
Theorem rename_pass_after_all_exits (E : Env) (config : Config) (w : World) :
  exists before after,
    trace (extractPNGs E config w).1 = trace w ++ before ++ after /\
    Forall (fun e => isRenamePassEvent e = false) before /\
    Forall (fun e => isExecEvent e = false) after /\
    execExits before ≡ₚ execStarts before /\
    (after <> [] ->
     execStarts before = map (command E config) (pathsToDump config)).
Proof.
  destruct (runs_extractPNGs E config w) as (t & w' & Hshape & Hrun).
  destruct (runTrace_split E config w t Hshape)
    as (before & after & -> & Hbefore & Hafter & Hexits & Hall).
  exists before, after. split; [|easy].
  apply (runs_trace _ _ _ _ _ Hrun).
Qed.

(** C4: when the prerequisites exist and the archive loads, then whatever
    the commands do (some may fail, in any order of exit), a command is
    started and ends for every requested path, each failure is logged as a
    warning by the callback of its command, the rename pass runs afterwards
    (its trace starts with the listing of the data directory), and the run
    fulfils. *)
Theorem failed_invocation_is_tolerated (E : Env) (config : Config) (w : World) :
  is_Some (lookupPath w (vpkPath config)) ->
  is_Some (lookupPath w (executable E config)) ->
  (forall w', exists n, vpk_load E w' (vpkPath config) = Returned n) ->
  exists exits head files renamed,
    map fst exits ≡ₚ pathsToDump config /\
    trace (extractPNGs E config w).1
    = trace w ++ head ++ dumpTrace E config exits ++ renamed
      ++ [Log info "PNG extraction completed successfully!" None] /\
    renamePassTrace config files renamed /\
    (forall path message,
       In (path, Some message) exits ->
       In (Log warn ("Warning extracting " +:+ path +:+ ":") (Some message))
          (dumpTrace E config exits)) /\
    (forall path,
       In path (pathsToDump config) ->
       In (ExecStart (command E config path)) (dumpTrace E config exits) /\
       exists err, In (ExecExit (command E config path) err)
                      (dumpTrace E config exits)) /\
    (extractPNGs E config w).2 = Returned tt.
Proof.
  intros Hvpk Htool Hload.
  destruct (runs_extractPNGs E config w) as (t & w' & Hshape & Hrun).
  destruct Hshape as [Hvpk0 | _ Htool0 | e _ _ [w1 Hthrown]
                      | n exits files renamed _ _ Hperm Hshape].
  - rewrite Hvpk0 in Hvpk. now destruct Hvpk.
  - rewrite Htool0 in Htool. now destruct Htool.
  - destruct (Hload w1) as [n Hn]. congruence.
  - exists exits. eexists. exists files, renamed.
    split; [exact Hperm|].
    split; [apply (runs_trace _ _ _ _ _ Hrun)|].
    split; [exact Hshape|].
    split; [intros path message; apply dumpTrace_warns|].
    split; [intros path; now apply dumpTrace_starts_and_exits|].
    apply (runs_outcome _ _ _ _ _ Hrun).
Qed.

(** The run in which the commands end in reverse order and the command of
    the status icons fails. *)
Lemma failed_invocation_is_tolerated_witness :
  is_Some (lookupPath sampleWorld (vpkPath mainConfig)) /\
  is_Some (lookupPath sampleWorld (executable flakyEnv mainConfig)) /\
  (forall w', exists n, vpk_load flakyEnv w' (vpkPath mainConfig) = Returned n) /\
  exists exits head files renamed,
    map fst exits ≡ₚ pathsToDump mainConfig /\
    trace (extractPNGs flakyEnv mainConfig sampleWorld).1
    = trace sampleWorld ++ head ++ dumpTrace flakyEnv mainConfig exits
      ++ renamed ++ [Log info "PNG extraction completed successfully!" None] /\
    renamePassTrace mainConfig files renamed /\
    (forall path message,
       In (path, Some message) exits ->
       In (Log warn ("Warning extracting " +:+ path +:+ ":") (Some message))
          (dumpTrace flakyEnv mainConfig exits)) /\
    (forall path,
       In path (pathsToDump mainConfig) ->
       In (ExecStart (command flakyEnv mainConfig path))
          (dumpTrace flakyEnv mainConfig exits) /\
       exists err, In (ExecExit (command flakyEnv mainConfig path) err)
                      (dumpTrace flakyEnv mainConfig exits)) /\
    (extractPNGs flakyEnv mainConfig sampleWorld).2 = Returned tt.
Proof.
  assert (Hvpk : is_Some (lookupPath sampleWorld (vpkPath mainConfig)))
    by (eexists; reflexivity).
  assert (Htool : is_Some (lookupPath sampleWorld
                             (executable flakyEnv mainConfig)))
    by (eexists; reflexivity).
  assert (Hload : forall w', exists n,
             vpk_load flakyEnv w' (vpkPath mainConfig) = Returned n)
    by (intros w'; eexists; reflexivity).
  split; [exact Hvpk|]. split; [exact Htool|]. split; [exact Hload|].
  exact (failed_invocation_is_tolerated flakyEnv mainConfig sampleWorld
           Hvpk Htool Hload).
Defined.

(** ** The turns of the rename loop *)

Section RenameTurn.

Variable E : Env.

Lemma rename_thrown oldPath newPath w e :
  (rename E oldPath newPath w).2 = Thrown e ->
  rename E oldPath newPath w
  = ({| fs := fs w; trace := trace w ++ [Rename oldPath newPath] |},
     Thrown e).
Proof.
  unfold rename. cbv zeta.
  destruct (rename_fault E w oldPath newPath); [now intros [= ->]|].
  destruct (JS.hasNul oldPath || JS.hasNul newPath); [now intros [= <-]|].
  destruct (lookupPath w oldPath) as [[content|]|];
    [|now intros [= <-]..].
  destruct (lookupPath w newPath) as [[c'|]|];
    first [now intros [= <-] | discriminate].
Qed.

Lemma rename_returned oldPath newPath w content :
  rename_fault E w oldPath newPath = None ->
  lookupPath w oldPath = Some (File content) ->
  JS.hasNul newPath = false ->
  lookupPath w newPath <> Some Dir ->
  rename E oldPath newPath w
  = ({| fs := <[resolve newPath := File content]>
                (delete (resolve oldPath) (fs w));
        trace := trace w ++ [Rename oldPath newPath] |},
     Returned tt).
Proof.
  intros Hfault Hold Hnul Hnew. unfold rename. cbv zeta.
  rewrite Hfault, Hold, Hnul.
  rewrite (lookupPath_nulFree w oldPath) by (rewrite Hold; eauto).
  cbn [orb].
  destruct (lookupPath w newPath) as [[c'|]|]; [reflexivity | | reflexivity].
  now contradiction Hnew.
Qed.

(** A file that passes the test is handed to [rename] with the two paths
    computed from its entry. *)
Lemma renameFile_unfold file count :
  isRenamed file = true ->
  renameFile E file count
  = try_catch
      (rename E (oldPathOf file) (newPathOf file);;
       when (S count mod 100 =? 0)%nat
         (log debug ("Renamed " +:+ pretty (S count) +:+ " files...") None);;
       ret (S count))
      (fun renameError =>
         log warn ("Failed to rename " +:+ name file +:+ ":")
             (Some renameError);;
         ret count).
Proof.
  intros His. unfold renameFile. unfold isRenamed in His. now rewrite His.
Qed.

(** The call returns: the file is moved, the count grows, and nothing but
    the progress line is logged. *)
Lemma renameFile_moved file count w content :
  isRenamed file = true ->
  rename_fault E w (oldPathOf file) (newPathOf file) = None ->
  lookupPath w (oldPathOf file) = Some (File content) ->
  JS.hasNul (newPathOf file) = false ->
  lookupPath w (newPathOf file) <> Some Dir ->
  renameFile E file count w
  = ({| fs := <[resolve (newPathOf file) := File content]>
                (delete (resolve (oldPathOf file)) (fs w));
        trace := trace w
                 ++ Rename (oldPathOf file) (newPathOf file)
                    :: progressLine (S count) |},
     Returned (S count)).
Proof.
  intros His Hfault Hold Hnul Hnew.
  rewrite (renameFile_unfold _ _ His).
  unfold try_catch, bind.
  rewrite (rename_returned _ _ _ content Hfault Hold Hnul Hnew).
  unfold progressLine.
  destruct ((S count mod 100 =? 0)%nat); cbn.
  - now rewrite <- app_assoc.
  - reflexivity.
Qed.

(** The call throws: the handler of this turn logs the warning, the file
    system and the count stay, and the turn returns. *)
Lemma renameFile_caught file count w e :
  isRenamed file = true ->
  (rename E (oldPathOf file) (newPathOf file) w).2 = Thrown e ->
  renameFile E file count w
  = ({| fs := fs w;
        trace := trace w
                 ++ [Rename (oldPathOf file) (newPathOf file);
                     Log warn ("Failed to rename " +:+ name file +:+ ":")
                         (Some e)] |},
     Returned count).
Proof.
  intros His Hthrown.
  rewrite (renameFile_unfold _ _ His).
  unfold try_catch, bind. rewrite (rename_thrown _ _ _ _ Hthrown).
  cbn. now rewrite <- app_assoc.
Qed.

(** A file that does not pass the test is passed over. *)
Lemma renameFile_skipped file count w :
  isRenamed file = false -> renameFile E file count w = (w, Returned count).
Proof.
  intros His. unfold renameFile. unfold isRenamed in His. now rewrite His.
Qed.

End RenameTurn.



(** The targets computed for [foo_png.png] under several directories. *)
Example rename_targets_by_directory :
  map (fun parent =>
         newPathOf {| name := "foo_png.png"; parentPath := parent;
                      isFile := true |})
      ["data"; EmptyString; "/"; "a/.."; ".."; "./data/"; "/srv//x/./y/../"]
  = ["data/foo.png"; "foo.png"; "/foo.png"; "foo.png"; "../foo.png";
     "data/foo.png"; "/srv/x/foo.png"].
Proof. vm_compute. reflexivity. Qed.

(** The turns of [a_png.png] and of [a.png], computed. *)
Example rename_turns_of_the_sample :
  renameFile calmEnv markedFile 0 collisionWorld
  = ({| fs := list_to_map [("data", Dir); ("data/a.png", File [Byte.x01])];
        trace := [Rename "data/a_png.png" "data/a.png"] |},
     Returned 1%nat) /\
  renameFile calmEnv
    {| name := "a.png"; parentPath := "data"; isFile := true |}
    0 collisionWorld
  = (collisionWorld, Returned 0%nat).
Proof. split; vm_compute; reflexivity. Qed.

(** ** Collisions *)

(** C1, as the code has it: the rename pass does not look at the target.
    When the target is an existing file, the call of [rename] replaces it:
    the turn returns with the renamed file at the target, the former content
    gone, the count grown, and no warning or error logged (at most the
    progress line).  A collision is reported only when the call itself fails,
    as it does when the target is a directory: then the turn logs the warning
    [Failed to rename ...] and leaves the file system as it was. *)
Theorem existing_target_is_replaced (E : Env) (file : Dirent) (count : nat)
    (w : World) (content : list Byte.byte) :
  isRenamed file = true ->
  rename_fault E w (oldPathOf file) (newPathOf file) = None ->
  lookupPath w (oldPathOf file) = Some (File content) ->
  (forall previous,
     lookupPath w (newPathOf file) = Some (File previous) ->
     renameFile E file count w
     = ({| fs := <[resolve (newPathOf file) := File content]>
                   (delete (resolve (oldPathOf file)) (fs w));
           trace := trace w
                    ++ Rename (oldPathOf file) (newPathOf file)
                       :: progressLine (S count) |},
        Returned (S count))) /\
  (lookupPath w (newPathOf file) = Some Dir ->
   renameFile E file count w
   = ({| fs := fs w;
         trace := trace w
                  ++ [Rename (oldPathOf file) (newPathOf file);
                      Log warn ("Failed to rename " +:+ name file +:+ ":")
                          (Some "EISDIR")] |},
      Returned count)).
Proof.
  intros His Hfault Hold. split.
  - intros previous Hnew. apply renameFile_moved; try assumption.
    + apply (lookupPath_nulFree w). rewrite Hnew. eauto.
    + rewrite Hnew. discriminate.
  - intros Hnew. apply renameFile_caught; [assumption|].
    unfold rename. cbv zeta. rewrite Hfault.
    rewrite (lookupPath_nulFree w (oldPathOf file)) by (rewrite Hold; eauto).
    rewrite (lookupPath_nulFree w (newPathOf file)) by (rewrite Hnew; eauto).
    cbn [orb]. now rewrite Hold, Hnew.
Qed.

(** The turn of [a_png.png] next to an existing [a.png]. *)
Lemma existing_target_is_replaced_witness :
  isRenamed markedFile = true /\
  rename_fault calmEnv collisionWorld (oldPathOf markedFile)
    (newPathOf markedFile) = None /\
  lookupPath collisionWorld (oldPathOf markedFile) = Some (File [Byte.x01]) /\
  (forall previous,
     lookupPath collisionWorld (newPathOf markedFile) = Some (File previous) ->
     renameFile calmEnv markedFile 0 collisionWorld
     = ({| fs := <[resolve (newPathOf markedFile) := File [Byte.x01]]>
                   (delete (resolve (oldPathOf markedFile))
                      (fs collisionWorld));
           trace := trace collisionWorld
                    ++ Rename (oldPathOf markedFile) (newPathOf markedFile)
                       :: progressLine 1 |},
        Returned 1%nat)) /\
  (lookupPath collisionWorld (newPathOf markedFile) = Some Dir ->
   renameFile calmEnv markedFile 0 collisionWorld
   = ({| fs := fs collisionWorld;
         trace := trace collisionWorld
                  ++ [Rename (oldPathOf markedFile) (newPathOf markedFile);
                      Log warn ("Failed to rename " +:+ name markedFile
                                +:+ ":") (Some "EISDIR")] |},
      Returned 0%nat)).
Proof.
  split; [reflexivity|]. split; [reflexivity|]. split; [reflexivity|].
  apply (existing_target_is_replaced calmEnv markedFile 0 collisionWorld
           [Byte.x01]); reflexivity.
Defined.

(** C1, as stated, fails: in a directory that holds [a_png.png] and an older
    [a.png], the rename pass ends with the content of [a_png.png] at [a.png],
    the older file overwritten, and its whole trace holds no warning and no
    error: the collision is not reported. *)
Lemma collision_is_overwritten_silently :
  lookupPath collisionWorld "data/a.png" = Some (File [Byte.x02]) /\
  lookupPath (renameFiles calmEnv mainConfig collisionWorld).1 "data/a.png"
  = Some (File [Byte.x01]) /\
  lookupPath (renameFiles calmEnv mainConfig collisionWorld).1 "data/a_png.png"
  = None /\
  trace (renameFiles calmEnv mainConfig collisionWorld).1
  = [Log info "Renaming _png.png files to .png..." None;
     Readdir "data";
     Rename "data/a_png.png" "data/a.png";
     Log info "Successfully renamed 1 PNG files" None] /\
  ~ (exists msg meta,
       In (Log warn msg meta)
          (trace (renameFiles calmEnv mainConfig collisionWorld).1) \/
       In (Log error msg meta)
          (trace (renameFiles calmEnv mainConfig collisionWorld).1)).
Proof.
  assert (Htrace :
    trace (renameFiles calmEnv mainConfig collisionWorld).1
    = [Log info "Renaming _png.png files to .png..." None;
       Readdir "data";
       Rename "data/a_png.png" "data/a.png";
       Log info "Successfully renamed 1 PNG files" None])
    by (vm_compute; reflexivity).
  split; [vm_compute; reflexivity|].
  split; [vm_compute; reflexivity|].
  split; [vm_compute; reflexivity|].
  split; [exact Htrace|].
  rewrite Htrace. intros (msg & meta & [Hin | Hin]);
    cbn in Hin; intuition discriminate.
Qed.

(** The one collision that is reported: the target is a directory. *)
Example blocked_rename_is_reported :
  renameFiles calmEnv mainConfig blockedWorld
  = ({| fs := fs blockedWorld;
        trace := [Log info "Renaming _png.png files to .png..." None;
                  Readdir "data";
                  Rename "data/d_png.png" "data/d.png";
                  Log warn "Failed to rename d_png.png:" (Some "EISDIR");
                  Log info "Successfully renamed 0 PNG files" None] |},
     Returned tt).
Proof. vm_compute. reflexivity. Qed.

(** ** The file named [_png.png] *)

(** C10, as the code has it: for a file whose whole name is [_png.png],
    [basename(name, "_png.png")] is the empty string, so the new name is
    [.png]: the turn calls [rename] with the target [.png] in the directory
    of the file. *)
Theorem bare_marker_becomes_dot_png (E : Env) (parent : string) (count : nat)
    (w : World) :
  Path.basename (name (bareMarker parent)) "_png.png" = EmptyString /\
  newPathOf (bareMarker parent)
  = Path.join [Path.dirname (oldPathOf (bareMarker parent)); ".png"] /\
  exists tail,
    trace (renameFile E (bareMarker parent) count w).1
    = trace w
      ++ Rename (oldPathOf (bareMarker parent))
                (Path.join [Path.dirname (oldPathOf (bareMarker parent));
                            ".png"])
         :: tail.
Proof.
  split; [reflexivity|]. split; [reflexivity|].
  destruct (runs_renameFile E (bareMarker parent) count w)
    as (t & w' & c' & Ht & Hrun).
  unfold fileTrace in Ht.
  change (isRenamed (bareMarker parent)) with true in Ht.
  destruct Ht as (tail & -> & _). exists tail.
  apply (runs_trace _ _ _ _ _ Hrun).
Qed.

(** C10, as stated, fails: in the sample directory the file [_png.png] is
    renamed to [.png]; nothing appears at [_png.png.png], and [basename] does
    not leave the name unchanged. *)
Lemma bare_marker_is_not_doubled :
  Path.basename "_png.png" "_png.png" <> "_png.png" /\
  trace (renameFile calmEnv (bareMarker "data") 0 sampleWorld).1
  = [Rename "data/_png.png" "data/.png"] /\
  lookupPath (renameFile calmEnv (bareMarker "data") 0 sampleWorld).1
    "data/_png.png.png" = None /\
  lookupPath (renameFile calmEnv (bareMarker "data") 0 sampleWorld).1
    "data/.png" = Some (File [Byte.x03]) /\
  lookupPath (renameFile calmEnv (bareMarker "data") 0 sampleWorld).1
    "data/_png.png" = None.
Proof.
  split; [discriminate|].
  repeat split; vm_compute; reflexivity.
Qed.

(** * Further properties of the source *)

(** ** The tables and the requested paths *)

Lemma NoDup_map_filter {A B} (g : A -> B) (f : A -> bool) (l : list A) :
  NoDup (map g l) -> NoDup (map g (List.filter f l)).
Proof.
  induction l as [|a l IH]; intros Hnd; [constructor|].
  cbn [map] in Hnd. apply NoDup_cons in Hnd as [Hnotin Hnd].
  cbn [List.filter]. destruct (f a); [|now apply IH].
  cbn [map]. apply NoDup_cons. split; [|now apply IH].
  intros Hin. apply Hnotin.
  apply list_elem_of_In, in_map_iff in Hin as (x & Hx & Hfx).
  apply list_elem_of_In, in_map_iff. exists x. split; [exact Hx|].
  now apply filter_In in Hfx.
Qed.

Lemma NoDup_map_inj {A B} (g : A -> B) (l : list A) a b :
  NoDup (map g l) -> In a l -> In b l -> g a = g b -> a = b.
Proof.
  induction l as [|x l IH]; intros Hnd Ha Hb Heq; [destruct Ha|].
  cbn [map] in Hnd. apply NoDup_cons in Hnd as [Hnotin Hnd].
  destruct Ha as [->|Ha], Hb as [->|Hb]; [reflexivity | | | now apply IH].
  - exfalso. apply Hnotin. apply list_elem_of_In, in_map_iff. eauto.
  - exfalso. apply Hnotin. apply list_elem_of_In, in_map_iff. eauto.
Qed.

(** The sixteen paths of the two tables are pairwise different. *)
Lemma table_paths_NoDup :
  NoDup (map (getProp neededDirectories) (keys neededDirectories)
         ++ map (getProp neededFiles) (keys neededFiles)).
Proof. apply (bool_decide_unpack _). vm_compute. exact I. Qed.

Lemma directory_requested_iff (config : Config) (key : string) :
  In key (keys neededDirectories) ->
  In (getProp neededDirectories key) (pathsToDump config)
  <-> configIsTrue config key = true.
Proof.
  intros Hkey. pose proof table_paths_NoDup as Hnd.
  apply NoDup_app in Hnd as (Hdirs & Hdisjoint & _).
  unfold pathsToDump. split.
  - intros Hin. apply in_app_or in Hin as [Hin | Hin].
    + apply in_map_iff in Hin as (key' & Heq & Hin).
      apply filter_In in Hin as [Hin Htrue].
      now rewrite <- (NoDup_map_inj _ _ _ _ Hdirs Hin Hkey Heq).
    + exfalso. apply (Hdisjoint (getProp neededDirectories key)).
      * apply list_elem_of_In. now apply in_map.
      * now apply list_elem_of_In.
  - intros Htrue. apply in_or_app. left. apply in_map.
    apply filter_In. now split.
Qed.

(** X1: the directory of a category is among the requested paths exactly
    when the flag of the category is [true] in the configuration. *)
Theorem directory_requested_iff_enabled (config : Config) (key : string) :
  In key (keys neededDirectories) ->
  In (getProp neededDirectories key) (pathsToDump config)
  <-> configIsTrue config key = true.
Proof. apply directory_requested_iff. Qed.

(** The status icons in the configuration of the source. *)
Lemma directory_requested_iff_enabled_witness :
  In "statusIcons" (keys neededDirectories) /\
  (In (getProp neededDirectories "statusIcons") (pathsToDump mainConfig)
   <-> configIsTrue mainConfig "statusIcons" = true).
Proof.
  assert (H : In "statusIcons" (keys neededDirectories))
    by (cbn; tauto).
  split; [exact H|].
  exact (directory_requested_iff_enabled mainConfig "statusIcons" H).
Defined.

Lemma configIsTrue_assign (options : PartialConfig) (key : string) :
  In key (keys neededDirectories) ->
  configIsTrue (assignConfig DEFAULT_CONFIG options) key
  = assignFlag true (optionFlag options key).
Proof.
  intros Hkey. cbn in Hkey.
  repeat (destruct Hkey as [<- | Hkey]; [reflexivity|]).
  destruct Hkey.
Qed.

(** X3: an extractor built from an options object requests the directory of
    a category exactly when the options leave the flag of the category out
    or set it to [true]: a flag left out counts as [true], while a flag set
    to [false] or present with the value [undefined] disables the
    category. *)
Theorem category_dumped_unless_disabled (options : PartialConfig)
    (key : string) :
  In key (keys neededDirectories) ->
  In (getProp neededDirectories key)
     (pathsToDump (assignConfig DEFAULT_CONFIG options))
  <-> optionFlag options key = Omitted \/ optionFlag options key = Given true.
Proof.
  intros Hkey. rewrite (directory_requested_iff _ _ Hkey).
  rewrite (configIsTrue_assign _ _ Hkey).
  destruct (optionFlag options key) as [| |[|]]; cbn; split;
    try tauto; try congruence; intros [?|?]; congruence.
Qed.

(** The patches, disabled in the options of the source. *)
Lemma category_dumped_unless_disabled_witness :
  In "patches" (keys neededDirectories) /\
  (In (getProp neededDirectories "patches")
      (pathsToDump (assignConfig DEFAULT_CONFIG mainOptions))
   <-> optionFlag mainOptions "patches" = Omitted \/
       optionFlag mainOptions "patches" = Given true).
Proof.
  assert (H : In "patches" (keys neededDirectories)) by (cbn; tauto).
  split; [exact H|].
  exact (category_dumped_unless_disabled mainOptions "patches" H).
Defined.

(** A flag that is present with the value [undefined] disables its
    category, and only its category. *)
Example undefined_flag_disables_category :
  configIsTrue (assignConfig DEFAULT_CONFIG undefinedOptions) "stickers" = false /\
  length (pathsToDump (assignConfig DEFAULT_CONFIG undefinedOptions)) = 15%nat /\
  ~ In (getProp neededDirectories "stickers")
       (pathsToDump (assignConfig DEFAULT_CONFIG undefinedOptions)).
Proof.
  split; [reflexivity|]. split; [reflexivity|].
  rewrite directory_requested_iff by (cbn; tauto). discriminate.
Qed.

Lemma append_inv_head (s t u : string) : s +:+ t = s +:+ u -> t = u.
Proof.
  induction s as [|c s IH]; [easy|].
  rewrite !append_cons. intros [= H]. now apply IH.
Qed.

Lemma append_inv_tail (s t u : string) : t +:+ s = u +:+ s -> t = u.
Proof.
  revert u. induction t as [|c t IH]; intros u Heq.
  - destruct u as [|d u]; [reflexivity|].
    apply (f_equal String.length) in Heq.
    rewrite append_nil, string_length_app in Heq. simpl in Heq. lia.
  - destruct u as [|d u].
    + apply (f_equal String.length) in Heq.
      rewrite append_nil, string_length_app in Heq. simpl in Heq. lia.
    + rewrite !append_cons in Heq. injection Heq as -> Heq.
      f_equal. now apply IH.
Qed.

Lemma command_inj (E : Env) (config : Config) (p q : string) :
  command E config p = command E config q -> p = q.
Proof.
  destruct (command_shape E config) as (before & after & Hshape).
  rewrite (Hshape p), (Hshape q). intros Heq.
  do 3 apply append_inv_head in Heq.
  now apply append_inv_tail in Heq.
Qed.

(** X2: no path is requested twice, and no two commands started by
    [dumpFiles] are the same text: the command of a path determines the
    path. *)
Theorem no_path_requested_twice (E : Env) (config : Config) :
  NoDup (pathsToDump config) /\
  NoDup (map (command E config) (pathsToDump config)) /\
  forall p q, command E config p = command E config q -> p = q.
Proof.
  assert (Hpaths : NoDup (pathsToDump config)).
  { pose proof table_paths_NoDup as Hnd.
    apply NoDup_app in Hnd as (Hdirs & Hdisjoint & Hfiles).
    unfold pathsToDump. apply NoDup_app. split; [|split].
    - now apply NoDup_map_filter.
    - intros x Hin. apply Hdisjoint.
      apply list_elem_of_In, in_map_iff in Hin as (k & <- & Hk).
      apply filter_In in Hk as [Hk _].
      apply list_elem_of_In. now apply in_map.
    - exact Hfiles. }
  split; [exact Hpaths|]. split; [|apply command_inj].
  induction Hpaths as [|p paths Hnotin _ IH]; [constructor|].
  cbn [map]. apply NoDup_cons. split; [|exact IH].
  intros Hin. apply Hnotin.
  apply list_elem_of_In, in_map_iff in Hin as (q & Heq & Hq).
  apply command_inj in Heq as ->. now apply list_elem_of_In.
Qed.

(** X4: the archive path handed to the external tool is not the path whose
    existence [extractPNGs] checks: every command carries, on every
    platform, the path written with backslashes as its [--input] argument,
    and that text differs from [vpkPath], which is written with slashes. *)
Theorem input_argument_is_not_checked_path (E : Env) (config : Config) :
  (exists before after,
     forall path,
       command E config path
       = before +:+ " --input " +:+ JS.DQUOTE +:+ inputArgument config
         +:+ JS.DQUOTE +:+ after path) /\
  inputArgument config <> vpkPath config.
Proof.
  split.
  - exists (if isWin32 E then
              JS.DQUOTE +:+ directory config +:+ JS.BACKSLASH
                +:+ source2Viewer config +:+ ".exe" +:+ JS.DQUOTE
            else directory config +:+ "/" +:+ source2Viewer config),
           (fun path =>
              " --vpk_filepath " +:+ JS.DQUOTE +:+ path +:+ JS.DQUOTE
              +:+ " -o " +:+ JS.DQUOTE +:+ directory config +:+ JS.DQUOTE
              +:+ " -d "
              +:+ (if isWin32 E then "> nul 2>&1" else "> /dev/null 2>&1")).
    intros path. unfold command, inputArgument. cbv zeta.
    rewrite !append_assoc. reflexivity.
  - unfold inputArgument, vpkPath. intros Heq.
    apply (f_equal (String.get (String.length (directory config) + 0))) in Heq.
    rewrite !get_app_r in Heq. discriminate Heq.
Qed.

(** ** Failures of the archive and of the listing *)

Lemma warnings_app t1 t2 : warnings (t1 ++ t2) = warnings t1 ++ warnings t2.
Proof. apply omap_app. Qed.

Lemma errors_app t1 t2 : errors (t1 ++ t2) = errors t1 ++ errors t2.
Proof. apply omap_app. Qed.


Section RunEdges.

Variable E : Env.
Variable config : Config.

(** The run up to the call of [loadVPK], when both prerequisites exist. *)
Lemma extractPNGs_after_checks w (k : M unit) :
  is_Some (lookupPath w (vpkPath config)) ->
  is_Some (lookupPath w (executable E config)) ->
  (found <- existsSync (vpkPath config);;
   if negb found then
     log error ("VPK file not found at: " +:+ vpkPath config) None
   else
     found' <- existsSync (executable E config);;
     if negb found' then
       log error ("Source2Viewer not found at: " +:+ executable E config) None;;
       log info "Please ensure Source2Viewer-CLI.exe is in the data directory"
           None
     else log info "Loading VPK files..." None;; k) w
  = k {| fs := fs w;
         trace := trace w ++ [ExistsSync (vpkPath config);
                              ExistsSync (executable E config);
                              Log info "Loading VPK files..." None] |}.
Proof.
  intros Hvpk Htool.
  unfold bind at 1. unfold existsSync at 1. unfold bind at 1. cbn [emit].
  rewrite (found_some w) by easy. cbn [negb].
  unfold bind at 1. unfold existsSync at 1. unfold bind at 1. cbn [emit].
  rewrite (found_some w) by easy. cbn [negb].
  unfold bind at 1. cbn [log emit fs trace].
  now rewrite <- !app_assoc.
Qed.


(** X5: when the prerequisites exist but the archive cannot be loaded, the
    exception of [load()] ends the run in the handler of [extractPNGs]: the
    error is logged with its message, the promise is fulfilled, the file
    system is unchanged, and no command is started and nothing is listed or
    renamed. *)
Theorem archive_load_failure_stops_run (w : World) (e : string) :
  is_Some (lookupPath w (vpkPath config)) ->
  is_Some (lookupPath w (executable E config)) ->
  (forall w', vpk_load E w' (vpkPath config) = Thrown e) ->
  extractPNGs E config w
  = ({| fs := fs w;
        trace := trace w
                 ++ [ExistsSync (vpkPath config);
                     ExistsSync (executable E config);
                     Log info "Loading VPK files..." None;
                     VpkLoad (vpkPath config);
                     Log error "Error during extraction:" (Some e)] |},
     Returned tt).
Proof.
  intros Hvpk Htool Hload. unfold extractPNGs, try_catch.
  rewrite (extractPNGs_after_checks w _ Hvpk Htool).
  unfold bind at 1. unfold loadVPK, bind. cbn [emit fs trace].
  rewrite Hload. unfold log, emit. cbn [fs trace].
  now rewrite <- !app_assoc.
Qed.

Lemma renameFiles_listing_failed w e :
  (readdir E (directory config)
     {| fs := fs w;
        trace := trace w
                 ++ [Log info "Renaming _png.png files to .png..." None] |}).2
  = Thrown e ->
  renameFiles E config w
  = ({| fs := fs w;
        trace := trace w
                 ++ [Log info "Renaming _png.png files to .png..." None;
                     Readdir (directory config);
                     Log error "Error renaming files:" (Some e)] |},
     Returned tt).
Proof.
  intros Hthrown. unfold renameFiles, try_catch, bind, log, emit.
  destruct (readdir E (directory config) _) as [w1 r] eqn:Hdir.
  cbn [snd] in Hthrown. subst r.
  assert (Hw1 : w1 = {| fs := fs w;
                        trace := (trace w
                          ++ [Log info "Renaming _png.png files to .png..."
                                  None])
                          ++ [Readdir (directory config)] |}).
  { unfold readdir in Hdir. cbv zeta in Hdir. cbn [fs trace] in Hdir.
    destruct (readdir_fault E _ _); [now injection Hdir as <- _|].
    destruct (lookupPath _ _) as [[c|]|]; now injection Hdir as <- _. }
  subst w1. cbn [fs trace]. now rewrite <- !app_assoc.
Qed.

(** X6: when the data directory is missing or is not a directory, the
    listing throws, [renameFiles] logs the error and fulfils: [rename] is
    never called and the file system is unchanged. *)
Theorem unlistable_directory_is_reported (w : World) :
  lookupPath w (directory config) <> Some Dir ->
  exists e,
    renameFiles E config w
    = ({| fs := fs w;
          trace := trace w
                   ++ [Log info "Renaming _png.png files to .png..." None;
                       Readdir (directory config);
                       Log error "Error renaming files:" (Some e)] |},
       Returned tt).
Proof.
  intros Hnodir.
  set (w1 := {| fs := fs w;
                trace := trace w
                  ++ [Log info "Renaming _png.png files to .png..." None] |}).
  assert (Hthrown : exists e, (readdir E (directory config) w1).2 = Thrown e).
  { unfold readdir. cbv zeta.
    destruct (readdir_fault E w1 (directory config)); [eauto|].
    change (lookupPath w1 (directory config))
      with (lookupPath w (directory config)).
    destruct (lookupPath w (directory config)) as [[c|]|]; [eauto | | eauto].
    now contradiction Hnodir. }
  destruct Hthrown as [e He]. exists e. now apply renameFiles_listing_failed.
Qed.

Lemma renameLoop_skips files count w :
  Forall (fun file => isRenamed file = false) files ->
  renameLoop E files count w = (w, Returned count).
Proof.
  induction 1 as [|file files Hfile _ IH]; [reflexivity|].
  cbn [renameLoop]. unfold bind.
  now rewrite (renameFile_skipped E file count w Hfile).
Qed.

(** X7: in a data directory that can be listed and in which no file name
    ends in the marker suffix, [renameFiles] calls [rename] for nothing,
    leaves the file system as it is and reports zero renamed files. *)
Theorem clean_directory_is_left_alone (w : World) :
  (forall w', readdir_fault E w' (directory config) = None) ->
  lookupPath w (directory config) = Some Dir ->
  Forall (fun file => isRenamed file = false)
         (listing (fs w) (directory config)) ->
  renameFiles E config w
  = ({| fs := fs w;
        trace := trace w
                 ++ [Log info "Renaming _png.png files to .png..." None;
                     Readdir (directory config);
                     Log info ("Successfully renamed " +:+ pretty 0%nat
                               +:+ " PNG files") None] |},
     Returned tt).
Proof.
  intros Hfault Hdir Hclean.
  unfold renameFiles, try_catch. unfold bind at 1. unfold log at 1, emit at 1.
  unfold bind at 1. unfold readdir. cbv zeta. rewrite Hfault.
  change (lookupPath {| fs := fs w; trace := _ |} (directory config))
    with (lookupPath w (directory config)).
  rewrite Hdir. cbn [fs trace]. unfold bind at 1.
  rewrite (renameLoop_skips _ _ _ Hclean).
  unfold log, emit. cbn [fs trace]. now rewrite <- !app_assoc.
Qed.

End RunEdges.

(** A run in which the archive never loads. *)
Lemma archive_load_failure_stops_run_witness :
  is_Some (lookupPath sampleWorld (vpkPath mainConfig)) /\
  is_Some (lookupPath sampleWorld (executable brokenArchiveEnv mainConfig)) /\
  (forall w', vpk_load brokenArchiveEnv w' (vpkPath mainConfig)
              = Thrown "corrupt archive") /\
  extractPNGs brokenArchiveEnv mainConfig sampleWorld
  = ({| fs := fs sampleWorld;
        trace := trace sampleWorld
                 ++ [ExistsSync (vpkPath mainConfig);
                     ExistsSync (executable brokenArchiveEnv mainConfig);
                     Log info "Loading VPK files..." None;
                     VpkLoad (vpkPath mainConfig);
                     Log error "Error during extraction:"
                         (Some "corrupt archive")] |},
     Returned tt).
Proof.
  assert (Hvpk : is_Some (lookupPath sampleWorld (vpkPath mainConfig)))
    by (eexists; reflexivity).
  assert (Htool : is_Some (lookupPath sampleWorld
                             (executable brokenArchiveEnv mainConfig)))
    by (eexists; reflexivity).
  split; [exact Hvpk|]. split; [exact Htool|]. split; [reflexivity|].
  exact (archive_load_failure_stops_run brokenArchiveEnv mainConfig
           sampleWorld "corrupt archive" Hvpk Htool (fun _ => eq_refl)).
Defined.

(** The rename pass in an empty file system. *)
Lemma unlistable_directory_is_reported_witness :
  lookupPath emptyWorld (directory mainConfig) <> Some Dir /\
  exists e,
    renameFiles calmEnv mainConfig emptyWorld
    = ({| fs := fs emptyWorld;
          trace := trace emptyWorld
                   ++ [Log info "Renaming _png.png files to .png..." None;
                       Readdir (directory mainConfig);
                       Log error "Error renaming files:" (Some e)] |},
       Returned tt).
Proof.
  assert (H : lookupPath emptyWorld (directory mainConfig) <> Some Dir)
    by discriminate.
  split; [exact H|].
  exact (unlistable_directory_is_reported calmEnv mainConfig emptyWorld H).
Defined.

(** The rename pass in a directory without marked names. *)
Lemma clean_directory_is_left_alone_witness :
  (forall w', readdir_fault calmEnv w' (directory mainConfig) = None) /\
  lookupPath cleanWorld (directory mainConfig) = Some Dir /\
  Forall (fun file => isRenamed file = false)
         (listing (fs cleanWorld) (directory mainConfig)) /\
  renameFiles calmEnv mainConfig cleanWorld
  = ({| fs := fs cleanWorld;
        trace := trace cleanWorld
                 ++ [Log info "Renaming _png.png files to .png..." None;
                     Readdir (directory mainConfig);
                     Log info ("Successfully renamed " +:+ pretty 0%nat
                               +:+ " PNG files") None] |},
     Returned tt).
Proof.
  assert (Hclean : Forall (fun file => isRenamed file = false)
                     (listing (fs cleanWorld) (directory mainConfig)))
    by (vm_compute; repeat constructor).
  split; [reflexivity|]. split; [reflexivity|]. split; [exact Hclean|].
  exact (clean_directory_is_left_alone calmEnv mainConfig cleanWorld
           (fun _ => eq_refl) eq_refl Hclean).
Defined.

(** ** What the run logs when steps fail *)

Section RunLogs.

Variable E : Env.
Variable config : Config.

(** When the archive loads, the run is the fan-out and fan-in, then the
    rename pass, then the completion line. *)
Lemma extractPNGs_complete w :
  is_Some (lookupPath w (vpkPath config)) ->
  is_Some (lookupPath w (executable E config)) ->
  (forall w', exists n, vpk_load E w' (vpkPath config) = Returned n) ->
  exists head w4,
    trace w4 = trace w ++ head /\
    Forall (fun e => isRenamePassEvent e = false) head /\
    extractPNGs E config w
    = ({| fs := fs (renameFiles E config w4).1;
          trace := trace (renameFiles E config w4).1
                   ++ [Log info "PNG extraction completed successfully!"
                           None] |},
       Returned tt).
Proof.
  intros Hvpk Htool Hload. unfold extractPNGs, try_catch.
  rewrite (extractPNGs_after_checks E config w _ Hvpk Htool).
  set (w2 := {| fs := fs w; trace := trace w ++ _ |}).
  set (w2' := {| fs := fs w2;
                 trace := trace w2 ++ [VpkLoad (vpkPath config)] |}).
  destruct (Hload w2') as [n Hn].
  set (w3 := {| fs := fs w2;
                trace := (trace w2'
                          ++ [Log info ("Loaded VPK with " +:+ pretty n
                                        +:+ " files") None])
                         ++ [Log info "Starting PNG extraction..." None] |}).
  destruct (runs_dumpFiles E config w3 (prerequisites_nulFree E config w Hvpk Htool))
    as (exits & w4 & _ & [Hdump Htrace]).
  destruct (runs_renameFiles E config w4) as (t & w5 & _ & [Hren _]).
  exists ([ExistsSync (vpkPath config); ExistsSync (executable E config);
           Log info "Loading VPK files..." None;
           VpkLoad (vpkPath config);
           Log info ("Loaded VPK with " +:+ pretty n +:+ " files") None;
           Log info "Starting PNG extraction..." None]
          ++ dumpTrace E config exits), w4.
  split; [|split].
  - rewrite Htrace. subst w3 w2' w2. cbn [fs trace].
    now rewrite <- !app_assoc.
  - apply Forall_app. split; [now repeat constructor|].
    apply dumpTrace_no_rename.
  - unfold bind at 1. unfold loadVPK. unfold bind at 1. unfold emit at 1.
    fold w2'. unfold bind at 1. rewrite Hn.
    unfold log at 1, emit at 1. cbn [fs trace].
    unfold bind at 1. unfold log at 1, emit at 1. cbn [fs trace].
    change {| fs := fs w2'; trace := _ |} with w3.
    unfold bind at 1. rewrite Hdump.
    unfold bind at 1. rewrite Hren. cbn [fst].
    reflexivity.
Qed.

(** X8: the completion line tells nothing about the outcome of the steps:
    when the prerequisites exist and the archive loads, the run ends with
    [PNG extraction completed successfully!] even if the data directory
    cannot be listed, right after the error line of the rename pass, and
    whatever the commands did; no rename is attempted. *)
Theorem completion_is_logged_after_failed_rename_pass (w : World)
    (e : string) :
  is_Some (lookupPath w (vpkPath config)) ->
  is_Some (lookupPath w (executable E config)) ->
  (forall w', exists n, vpk_load E w' (vpkPath config) = Returned n) ->
  (forall w', readdir_fault E w' (directory config) = Some e) ->
  exists head,
    trace (extractPNGs E config w).1
    = trace w ++ head
      ++ [Log info "Renaming _png.png files to .png..." None;
          Readdir (directory config);
          Log error "Error renaming files:" (Some e);
          Log info "PNG extraction completed successfully!" None] /\
    Forall (fun e => isRenamePassEvent e = false) head /\
    (extractPNGs E config w).2 = Returned tt.
Proof.
  intros Hvpk Htool Hload Hfault.
  destruct (extractPNGs_complete w Hvpk Htool Hload)
    as (head & w4 & Htrace & Hhead & ->).
  exists head. split; [|split; [exact Hhead | reflexivity]].
  rewrite (renameFiles_listing_failed E config w4 e).
  - cbn [fst fs trace]. rewrite Htrace. now rewrite <- !app_assoc.
  - unfold readdir. cbv zeta. now rewrite Hfault.
Qed.








Lemma fs_bind {A B} (m : M A) (k : A -> M B) w :
  (forall w0, fs (m w0).1 = fs w0) ->
  (forall a w0, fs (k a w0).1 = fs w0) ->
  fs (bind m k w).1 = fs w.
Proof.
  intros Hm Hk. unfold bind. specialize (Hm w).
  destruct (m w) as [w1 [a|e]]; cbn [fst] in *; [|exact Hm].
  now rewrite Hk.
Qed.

Lemma fs_mapM_startExec paths w :
  fs (mapM (fun path => newPromise (startExec E config path)) paths w).1
  = fs w.
Proof.
  revert w. induction paths as [|p paths IH]; intros w; [reflexivity|].
  cbn [mapM]. apply fs_bind.
  - intros w0. unfold newPromise, try_catch, startExec, bind, log, emit.
    cbn [fs trace]. now destruct (JS.hasNul (command E config p)).
  - intros a w0. apply fs_bind; [exact IH | reflexivity].
Qed.

Lemma fs_awaitAll n pending w :
  (forall w0 cmd, (exec_exit E w0 cmd).1 = fs w0) ->
  fs (awaitAll E n pending w).1 = fs w.
Proof.
  intros Hquiet. revert pending w.
  induction n as [|n IH]; intros pending w; [reflexivity|].
  cbn [awaitAll].
  destruct (pending !! _) as [[path cmd]|]; [|reflexivity].
  apply fs_bind; [|intros _ w0; apply IH].
  intros w0. unfold execCallback. apply fs_bind.
  - intros w1. specialize (Hquiet w1 cmd).
    destruct (exec_exit E w1 cmd) as [m err]. exact Hquiet.
  - intros [msg|] w1; reflexivity.
Qed.

(** X10: [dumpFiles] writes nothing itself: if no command changes the file
    system, the file system after [dumpFiles] is the one before. *)
Theorem dumpFiles_only_commands_write (w : World) :
  (forall w0 cmd, (exec_exit E w0 cmd).1 = fs w0) ->
  fs (dumpFiles E config w).1 = fs w.
Proof.
  intros Hquiet. unfold dumpFiles, try_catch.
  match goal with |- fs (match ?m w with _ => _ end).1 = _ =>
    assert (Hbody : fs (m w).1 = fs w); [|destruct (m w) as [w1 [[]|e]]]
  end.
  - apply fs_bind; [reflexivity|]. intros _ w0.
    apply fs_bind; [apply fs_mapM_startExec|].
    intros promises w1. unfold awaitPromises.
    destruct (firstRejection promises); [reflexivity|].
    now apply fs_awaitAll.
  - exact Hbody.
  - exact Hbody.
Qed.

End RunLogs.

(** A run in which every command fails and the listing is refused. *)
Lemma completion_is_logged_after_failed_rename_pass_witness :
  is_Some (lookupPath sampleWorld (vpkPath mainConfig)) /\
  is_Some (lookupPath sampleWorld (executable hostileEnv mainConfig)) /\
  (forall w', exists n, vpk_load hostileEnv w' (vpkPath mainConfig) = Returned n) /\
  (forall w', readdir_fault hostileEnv w' (directory mainConfig) = Some "EACCES") /\
  exists head,
    trace (extractPNGs hostileEnv mainConfig sampleWorld).1
    = trace sampleWorld ++ head
      ++ [Log info "Renaming _png.png files to .png..." None;
          Readdir (directory mainConfig);
          Log error "Error renaming files:" (Some "EACCES");
          Log info "PNG extraction completed successfully!" None] /\
    Forall (fun e => isRenamePassEvent e = false) head /\
    (extractPNGs hostileEnv mainConfig sampleWorld).2 = Returned tt.
Proof.
  assert (Hvpk : is_Some (lookupPath sampleWorld (vpkPath mainConfig)))
    by (eexists; reflexivity).
  assert (Htool : is_Some (lookupPath sampleWorld
                             (executable hostileEnv mainConfig)))
    by (eexists; reflexivity).
  assert (Hload : forall w', exists n,
             vpk_load hostileEnv w' (vpkPath mainConfig) = Returned n)
    by (intros w'; eexists; reflexivity).
  split; [exact Hvpk|]. split; [exact Htool|]. split; [exact Hload|].
  split; [reflexivity|].
  exact (completion_is_logged_after_failed_rename_pass hostileEnv mainConfig
           sampleWorld "EACCES" Hvpk Htool Hload (fun _ => eq_refl)).
Defined.

(** The commands of the calm environment leave the file system alone. *)
Lemma dumpFiles_only_commands_write_witness :
  (forall w0 cmd, (exec_exit calmEnv w0 cmd).1 = fs w0) /\
  fs (dumpFiles calmEnv mainConfig sampleWorld).1 = fs sampleWorld.
Proof.
  split; [reflexivity|].
  exact (dumpFiles_only_commands_write calmEnv mainConfig sampleWorld
           (fun _ _ => eq_refl)).
Defined.

(** ** What the rename pass does to the file system *)

Section RenameInvariants.

Variable E : Env.

(** The three ways a turn of the loop ends. *)
Lemma renameFile_cases file count w :
  renameFile E file count w = (w, Returned count)
  \/ (exists e,
        isRenamed file = true /\
        renameFile E file count w
        = ({| fs := fs w;
              trace := trace w
                       ++ [Rename (oldPathOf file) (newPathOf file);
                           Log warn ("Failed to rename " +:+ name file +:+ ":")
                               (Some e)] |},
           Returned count))
  \/ (exists content,
        isRenamed file = true /\
        fs w !! resolve (oldPathOf file) = Some (File content) /\
        fs w !! resolve (newPathOf file) <> Some Dir /\
        renameFile E file count w
        = ({| fs := <[resolve (newPathOf file) := File content]>
                      (delete (resolve (oldPathOf file)) (fs w));
              trace := trace w
                       ++ Rename (oldPathOf file) (newPathOf file)
                          :: progressLine (S count) |},
           Returned (S count))).
Proof.
  destruct (isRenamed file) eqn:His.
  2: { left. now apply renameFile_skipped. }
  right.
  destruct ((rename E (oldPathOf file) (newPathOf file) w).2) as [[]|e] eqn:Hr.
  - right. unfold rename in Hr. cbv zeta in Hr.
    destruct (rename_fault E w (oldPathOf file) (newPathOf file)) eqn:Hfault;
      [discriminate|].
    destruct (JS.hasNul (oldPathOf file) || JS.hasNul (newPathOf file))
      eqn:Hnul; [discriminate|].
    apply orb_false_iff in Hnul as [Hnul Hnul'].
    destruct (lookupPath w (oldPathOf file)) as [[content|]|] eqn:Hold;
      [|discriminate..].
    exists content.
    assert (Hnew : lookupPath w (newPathOf file) <> Some Dir).
    { intros Hdir. rewrite Hdir in Hr. discriminate. }
    unfold lookupPath in Hold, Hnew. rewrite Hnul in Hold. rewrite Hnul' in Hnew.
    repeat split; try assumption.
    apply renameFile_moved; try assumption;
      unfold lookupPath; now rewrite ?Hnul, ?Hnul'.
  - left. exists e. split; [reflexivity|]. now apply renameFile_caught.
Qed.

(** What a turn does to the file system: nothing, or one move of a file to
    a path that holds no directory. *)
Lemma renameFile_fs file count w :
  fs (renameFile E file count w).1 = fs w
  \/ exists content,
       isRenamed file = true /\
       fs w !! resolve (oldPathOf file) = Some (File content) /\
       fs w !! resolve (newPathOf file) <> Some Dir /\
       fs (renameFile E file count w).1
       = <[resolve (newPathOf file) := File content]>
           (delete (resolve (oldPathOf file)) (fs w)).
Proof.
  destruct (renameFile_cases file count w)
    as [-> | [(e & _ & ->) | (content & His & Hold & Hnew & ->)]];
    [now left | now left | right; eauto].
Qed.

(** A relation between file systems that every turn keeps is kept by the
    loop. *)
Lemma renameLoop_preserves (R : gmap string Node -> gmap string Node -> Prop) :
  (forall m, R m m) ->
  (forall a b c, R a b -> R b c -> R a c) ->
  (forall file count w, R (fs w) (fs (renameFile E file count w).1)) ->
  forall files count w, R (fs w) (fs (renameLoop E files count w).1).
Proof.
  intros Hrefl Htrans Hstep files.
  induction files as [|file files IH]; intros count w; [apply Hrefl|].
  cbn [renameLoop]. unfold bind.
  specialize (Hstep file count w).
  destruct (renameFile E file count w) as [w1 [c1|e]]; cbn [fst] in *.
  - eapply Htrans; [exact Hstep | apply IH].
  - exact Hstep.
Qed.

(** X11: the rename pass touches only the paths it computes: a path that is
    neither the source nor the target of a file of the listing that passes
    the test holds after the loop what it held before. *)
Theorem rename_pass_touches_only_its_paths (files : list Dirent)
    (count : nat) (w : World) (p : string) :
  (forall file,
     In file files -> isRenamed file = true ->
     p <> resolve (oldPathOf file) /\ p <> resolve (newPathOf file)) ->
  fs (renameLoop E files count w).1 !! p = fs w !! p.
Proof.
  revert count w. induction files as [|file files IH]; intros count w Hp;
    [reflexivity|].
  cbn [renameLoop]. unfold bind.
  assert (Hstep : fs (renameFile E file count w).1 !! p = fs w !! p).
  { destruct (renameFile_fs file count w)
      as [-> | (content & His & _ & _ & ->)]; [reflexivity|].
    destruct (Hp file (or_introl eq_refl) His) as [Hold Hnew].
    rewrite lookup_insert_ne by congruence.
    now rewrite lookup_delete_ne by congruence. }
  destruct (renameFile E file count w) as [w1 [c1|e]]; cbn [fst] in *;
    [|exact Hstep].
  rewrite IH; [exact Hstep|].
  intros f Hf. apply Hp. now right.
Qed.

(** X12: the rename pass neither removes nor creates nor replaces a
    directory: a path holds a directory after the loop exactly when it held
    one before. *)
Theorem rename_pass_keeps_directories (files : list Dirent) (count : nat)
    (w : World) (p : string) :
  fs (renameLoop E files count w).1 !! p = Some Dir
  <-> fs w !! p = Some Dir.
Proof.
  revert p.
  apply (renameLoop_preserves
           (fun a b => forall p, b !! p = Some Dir <-> a !! p = Some Dir)).
  - reflexivity.
  - intros a b c Hab Hbc p. now rewrite Hbc.
  - intros file n w0 p.
    destruct (renameFile_fs file n w0)
      as [-> | (content & _ & Hold & Hnew & ->)]; [reflexivity|].
    destruct (decide (resolve (newPathOf file) = p)) as [<-|Hn].
    { rewrite lookup_insert_eq. split; [discriminate | contradiction]. }
    rewrite lookup_insert_ne by exact Hn.
    destruct (decide (resolve (oldPathOf file) = p)) as [<-|Ho].
    { rewrite lookup_delete_eq, Hold. split; discriminate. }
    now rewrite lookup_delete_ne.
Qed.

(** X13: the rename pass only moves files: the file system does not grow,
    and the content of every file found after the loop was the content of a
    file before it. *)
Theorem rename_pass_only_moves_files (files : list Dirent) (count : nat)
    (w : World) :
  (size (fs (renameLoop E files count w).1) <= size (fs w))%nat /\
  forall p content,
    fs (renameLoop E files count w).1 !! p = Some (File content) ->
    exists q, fs w !! q = Some (File content).
Proof.
  apply (renameLoop_preserves
           (fun a b => (size b <= size a)%nat /\
                       forall p content,
                         b !! p = Some (File content) ->
                         exists q, a !! q = Some (File content))).
  - intros m. split; [lia | eauto].
  - intros a b c [Hab Hab'] [Hbc Hbc']. split; [lia|].
    intros p content Hp. destruct (Hbc' p content Hp) as [q Hq]. eauto.
  - intros file n w0.
    destruct (renameFile_fs file n w0)
      as [-> | (content & _ & Hold & Hnew & ->)]; [split; [lia | eauto]|].
    split.
    + rewrite map_size_insert, map_size_delete, Hold.
      assert (0 < size (fs w0))%nat.
      { destruct (size (fs w0)) eqn:Hsize; [|lia].
        apply map_size_empty_inv in Hsize. rewrite Hsize in Hold.
        now rewrite lookup_empty in Hold. }
      destruct (delete _ _ !! _); cbn; lia.
    + intros p c Hp.
      destruct (decide (resolve (newPathOf file) = p)) as [<-|Hn].
      { rewrite lookup_insert_eq in Hp. injection Hp as <-. eauto. }
      rewrite lookup_insert_ne in Hp by exact Hn.
      destruct (decide (resolve (oldPathOf file) = p)) as [<-|Ho].
      { now rewrite lookup_delete_eq in Hp. }
      rewrite lookup_delete_ne in Hp by exact Ho. eauto.
Qed.

Lemma progressLine_quiet n :
  warnings (progressLine n) = [] /\ renameCalls (progressLine n) = [].
Proof. unfold progressLine. now destruct (_ =? _)%nat. Qed.

(** The count after the loop: one more for every call of [rename] that did
    not end in the warning. *)
Lemma renameLoop_count files count w :
  exists t count',
    (renameLoop E files count w).2 = Returned count' /\
    trace (renameLoop E files count w).1 = trace w ++ t /\
    errors t = [] /\
    (count' + length (warnings t) = count + length (renameCalls t))%nat.
Proof.
  revert count w. induction files as [|file files IH]; intros count w.
  - exists [], count. cbn. rewrite app_nil_r. repeat split; lia.
  - cbn [renameLoop]. unfold bind.
    destruct (renameFile_cases file count w)
      as [-> | [(e & _ & ->) | (content & _ & _ & _ & ->)]].
    + apply IH.
    + destruct (IH count {| fs := fs w;
                            trace := trace w
                              ++ [Rename (oldPathOf file) (newPathOf file);
                                  Log warn ("Failed to rename " +:+ name file
                                            +:+ ":") (Some e)] |})
        as (t & c' & Hr & Ht & He & Hc).
      eexists (_ ++ t), c'. split; [exact Hr|].
      split; [rewrite Ht; cbn [trace]; now rewrite <- app_assoc|].
      rewrite errors_app, warnings_app, renameCalls_app, !length_app, He.
      cbn. split; [reflexivity | lia].
    + destruct (IH (S count)
                  {| fs := <[resolve (newPathOf file) := File content]>
                             (delete (resolve (oldPathOf file)) (fs w));
                     trace := trace w
                              ++ Rename (oldPathOf file) (newPathOf file)
                                 :: progressLine (S count) |})
        as (t & c' & Hr & Ht & He & Hc).
      eexists (_ ++ t), c'. split; [exact Hr|].
      split; [rewrite Ht; cbn [trace]; now rewrite <- app_assoc|].
      rewrite errors_app, warnings_app, renameCalls_app, !length_app, He.
      change (?x :: ?l) with ([x] ++ l).
      rewrite errors_app, warnings_app, renameCalls_app, !length_app.
      destruct (progressLine_quiet (S count)) as [-> ->].
      unfold progressLine. destruct (_ =? _)%nat; cbn; (split; [reflexivity | lia]).
Qed.

(** X14: the number that [renameFiles] reports is the number of calls of
    [rename] that did not fail: when the listing succeeds, the last line of
    the pass is [Successfully renamed n PNG files] with [n] the number of
    calls of [rename] minus the number of warnings; when it does not, the
    pass logs an error and calls [rename] for nothing. *)
Theorem reported_count_is_successful_renames (config : Config) (w : World) :
  exists t,
    trace (renameFiles E config w).1 = trace w ++ t /\
    ((exists e, errors t = [("Error renaming files:", Some e)] /\
                renameCalls t = [])
     \/ (errors t = [] /\
         last t
         = Some (Log info ("Successfully renamed "
                           +:+ pretty (length (renameCalls t)
                                       - length (warnings t))%nat
                           +:+ " PNG files") None))).
Proof.
  set (w1 := {| fs := fs w;
                trace := trace w
                  ++ [Log info "Renaming _png.png files to .png..." None] |}).
  destruct ((readdir E (directory config) w1).2) as [files|e] eqn:Hdir.
  - destruct (renameLoop_count files 0%nat
                {| fs := fs w;
                   trace := trace w1 ++ [Readdir (directory config)] |})
      as (t & n & Hr & Ht & He & Hc).
    exists ([Log info "Renaming _png.png files to .png..." None;
             Readdir (directory config)]
            ++ t
            ++ [Log info ("Successfully renamed " +:+ pretty n
                          +:+ " PNG files") None]).
    assert (Hrun : renameFiles E config w
      = ({| fs := fs (renameLoop E files 0%nat
                        {| fs := fs w;
                           trace := trace w1
                                    ++ [Readdir (directory config)] |}).1;
            trace := (trace w1 ++ [Readdir (directory config)]) ++ t
                     ++ [Log info ("Successfully renamed " +:+ pretty n
                                   +:+ " PNG files") None] |},
         Returned tt)).
    { unfold renameFiles, try_catch. unfold bind at 1.
      unfold log at 1, emit at 1. fold w1. unfold bind at 1.
      assert (Hw : readdir E (directory config) w1
                   = ({| fs := fs w;
                         trace := trace w1 ++ [Readdir (directory config)] |},
                      Returned files)).
      { unfold readdir in *. cbv zeta in *.
        destruct (readdir_fault E w1 (directory config)); [discriminate|].
        destruct (lookupPath w1 (directory config)) as [[c|]|];
          try discriminate.
        cbn [snd] in Hdir. injection Hdir as <-. reflexivity. }
      rewrite Hw. unfold bind at 1.
      destruct (renameLoop E files 0%nat _) as [w2 r] eqn:Hloop.
      cbn [fst snd] in Hr, Ht. subst r.
      unfold log, emit. cbn [fs trace fst]. rewrite Ht. cbn [trace].
      now rewrite <- !app_assoc. }
    rewrite Hrun. cbn [fst trace]. split.
    { subst w1. cbn [trace]. now rewrite <- !app_assoc. }
    right. rewrite !errors_app, He. split; [reflexivity|].
    match goal with |- last ?l = _ =>
      assert (Hcalls : renameCalls l = renameCalls t)
        by (rewrite !renameCalls_app; exact (app_nil_r _));
      assert (Hwarns : warnings l = warnings t)
        by (rewrite !warnings_app; exact (app_nil_r _))
    end.
    rewrite Hcalls, Hwarns.
    replace (length (renameCalls t) - length (warnings t))%nat with n by lia.
    rewrite app_assoc. apply last_snoc.
  - exists [Log info "Renaming _png.png files to .png..." None;
            Readdir (directory config);
            Log error "Error renaming files:" (Some e)].
    rewrite (renameFiles_listing_failed E config w e Hdir).
    split; [reflexivity|]. left. exists e. split; reflexivity.
Qed.

End RenameInvariants.

(** The archive of the sample directory is not a path of the rename of
    [a_png.png]. *)
Lemma rename_pass_touches_only_its_paths_witness :
  (forall file,
     In file [markedFile] -> isRenamed file = true ->
     "data/game/csgo/pak01_dir.vpk" <> resolve (oldPathOf file) /\
     "data/game/csgo/pak01_dir.vpk" <> resolve (newPathOf file)) /\
  fs (renameLoop calmEnv [markedFile] 0 sampleWorld).1
    !! "data/game/csgo/pak01_dir.vpk"
  = fs sampleWorld !! "data/game/csgo/pak01_dir.vpk".
Proof.
  assert (H : forall file,
     In file [markedFile] -> isRenamed file = true ->
     "data/game/csgo/pak01_dir.vpk" <> resolve (oldPathOf file) /\
     "data/game/csgo/pak01_dir.vpk" <> resolve (newPathOf file)).
  { intros file [<- | []] _. split; intros Heq; vm_compute in Heq;
      discriminate Heq. }
  split; [exact H|].
  exact (rename_pass_touches_only_its_paths calmEnv [markedFile] 0
           sampleWorld "data/game/csgo/pak01_dir.vpk" H).
Defined.

(** ** The fan-out *)


(** ** The promises *)

Section Promises.

Variable E : Env.
Variable config : Config.









End Promises.



(** [dumpFiles] called with a name of the tool that [exec] refuses: the
    four calls of [exec] throw, the handler logs the error, and no command
    has run.  In a run of [extractPNGs] the tool is not found and nothing
    is started. *)
Example refused_commands_are_reported :
  dumpFiles calmEnv nulConfig sampleWorld
  = ({| fs := fs sampleWorld;
        trace := refusedDumpTrace calmEnv nulConfig |}, Returned tt) /\
  errors (trace (dumpFiles calmEnv nulConfig sampleWorld).1)
  = [("Error dumping files:", Some "ERR_INVALID_ARG_VALUE")] /\
  execExits (trace (dumpFiles calmEnv nulConfig sampleWorld).1) = [] /\
  trace (extractPNGs calmEnv nulConfig sampleWorld).1
  = [ExistsSync (vpkPath nulConfig);
     ExistsSync (executable calmEnv nulConfig);
     Log error ("Source2Viewer not found at: "
                +:+ executable calmEnv nulConfig) None;
     Log info "Please ensure Source2Viewer-CLI.exe is in the data directory"
         None].
Proof. repeat split; vm_compute; reflexivity. Qed.
